(** * preproc.py: the fMRI preprocessing script, embedded and verified

    The script [src/lib/preproc.py] does four things:
    - it discovers the subjects (a glob over the data directory),
    - it defines two edge selectors, [pickfirst] and [pickvol],
    - it instantiates a workflow of twelve nodes with eighteen
      [preproc.connect] calls,
    - it dispatches on [sys.argv] to plot or to run the workflow.

    Each part is translated below; calls into libraries (glob, nibabel,
    the workflow engine, the filesystem) are taken from an explicit
    environment so that every definition can be evaluated. *)

From Stdlib Require Import List String Ascii ZArith Bool Arith Lia.
From Stdlib Require Import Sorting.Sorted Sorting.Permutation.
Import ListNotations.
Local Open Scope string_scope.

(** ** Python values, exceptions and results *)

Module Py.

(** The fragment of Python values the selectors can meet. *)
#[local] Set Warnings "-register-all".
Inductive pyval : Type :=
| PNone
| PInt (z : Z)
| PStr (s : string)
| PList (items : list pyval)
| PTuple (items : list pyval).

Inductive exn : Type :=
| IndexError
| TypeError
| AttributeError
| Exception (msg : string)
| LibraryError (msg : string).

Inductive result (A : Type) : Type :=
| Ok (a : A)
| Raise (e : exn).

Arguments Ok {A} a.
Arguments Raise {A} e.

Definition bind {A B : Type} (r : result A) (k : A -> result B) : result B :=
  match r with
  | Ok a => k a
  | Raise e => Raise e
  end.

Notation "x <- r ;; k" := (bind r (fun x => k))
  (at level 61, r at next level, right associativity).

(** [isinstance(v, list)] *)
Definition isinstance_list (v : pyval) : bool :=
  match v with
  | PList _ => true
  | _ => false
  end.

(** [items[i]] on a sequence of known length: a negative index counts
    from the end, anything out of range raises [IndexError]. *)
Definition seq_getitem {A : Type} (items : list A) (i : Z) : result A :=
  let n := Z.of_nat (List.length items) in
  let j := if (i <? 0)%Z then (i + n)%Z else i in
  if ((j <? 0) || (n <=? j))%Z then Raise IndexError
  else match nth_error items (Z.to_nat j) with
       | Some x => Ok x
       | None => Raise IndexError
       end.

Definition string_of_ascii (c : ascii) : string := String c EmptyString.

(** [v[i]]: subscription of lists, tuples and strings by an integer;
    every other combination is a [TypeError]. *)
Definition getitem (v i : pyval) : result pyval :=
  match v, i with
  | PList items, PInt k => seq_getitem items k
  | PTuple items, PInt k => seq_getitem items k
  | PStr s, PInt k =>
      c <- seq_getitem (list_ascii_of_string s) k ;;
      Ok (PStr (string_of_ascii c))
  | _, _ => Raise TypeError
  end.

(** [str.lower] on the ASCII range: the letters A..Z move to a..z and
    every other character stays. *)
Definition lower_ascii (c : ascii) : ascii :=
  let n := nat_of_ascii c in
  if (65 <=? n)%nat && (n <=? 90)%nat then ascii_of_nat (n + 32) else c.

Fixpoint lower (s : string) : string :=
  match s with
  | EmptyString => EmptyString
  | String c s' => String (lower_ascii c) (lower s')
  end.

(** [s.split(sep)] for a one-character separator: the pieces between
    the occurrences of [sep]; never the empty list. *)
Fixpoint split (sep : ascii) (s : string) : list string :=
  match s with
  | EmptyString => [EmptyString]
  | String c s' =>
      if Ascii.eqb c sep then EmptyString :: split sep s'
      else match split sep s' with
           | piece :: rest => String c piece :: rest
           | [] => [string_of_ascii c]
           end
  end.

(** [sep not in s] *)
Fixpoint free_of (sep : ascii) (s : string) : bool :=
  match s with
  | EmptyString => true
  | String c s' => negb (Ascii.eqb c sep) && free_of sep s'
  end.

(** [sorted(xs)] on strings. Python compares strings lexicographically
    by code point; the result of a sort of strings is fixed by its
    input up to the order of equal (hence identical) strings. *)
Fixpoint insert_sorted (x : string) (xs : list string) : list string :=
  match xs with
  | [] => [x]
  | y :: ys => if String.leb x y then x :: xs else y :: insert_sorted x ys
  end.

Fixpoint sorted (xs : list string) : list string :=
  match xs with
  | [] => []
  | x :: xs' => insert_sorted x (sorted xs')
  end.

(** The order [sorted] sorts by. *)
Definition string_le (a b : string) : Prop := String.leb a b = true.

End Py.

Import Py.

(** ** Paths and parameters (lines 1-21) *)

Definition datadir : string := "/home/brain/bart/data".
Definition repodir : string := "/home/brain/bart/fmri-repro".
Definition figdir : string := repodir ++ "/fig".
Definition dotdir : string := repodir ++ "/dot".
Definition normtemp : string :=
  "/usr/share/data/fsl-mni152-templates/MNI152_T1_2mm_brain.nii.gz".
Definition fwhm : Z := 8.

(** ** The environment of the script *)

(** What the script reads from outside itself.
    - [glob p] is the list [glob.glob(p)] returns, in the order the
      filesystem yields it;
    - [load_shape f] is [nibabel.load(f).get_shape()], a tuple of the
      image dimensions, or the exception the library raises;
    - [true_division] tells whether [/] on two integers is the true
      division of Python 3 ([true]) or the floor division of Python 2
      ([false]). *)
Record Env : Type := mkEnv {
  glob : string -> list string;
  load_shape : pyval -> result pyval;
  true_division : bool
}.

(** ** Subjects (lines 23-26) *)

Definition os_path_sep : ascii := "/"%char.

(** [os.path.join(a, b)] on a POSIX system. *)
Definition os_path_join (a b : string) : string :=
  match b with
  | String "/"%char _ => b
  | _ =>
      match a with
      | EmptyString => b
      | _ =>
          if String.eqb (substring (String.length a - 1) 1 a) "/"
          then a ++ b
          else a ++ "/" ++ b
      end
  end.

(** Line 24. *)
Definition subjdirs (env : Env) : list string :=
  sorted (glob env (os_path_join datadir "sub*")).

(** Line 25: [path.split(os.path.sep)[-1]] for every path. *)
Definition path_tail (path : string) : string :=
  List.last (split os_path_sep path) EmptyString.

Definition subjects_all (env : Env) : list string :=
  map path_tail (subjdirs env).

(** Line 26: [subjects = subjects[:1]]. *)
Definition subjects (env : Env) : list string :=
  firstn 1 (subjects_all env).

(** ** Utility functions (lines 32-47) *)

Definition pickfirst (files : pyval) : result pyval :=
  if isinstance_list files then getitem files (PInt 0)
  else Ok files.

(** Conversion of an integer to a 64-bit float, given as the integer
    the float denotes: integers of magnitude up to 2^53 are kept;
    beyond, the value is rounded to 53 significant bits, to the nearest
    and on a tie to the even significand. *)
Definition round_float64 (z : Z) : Z :=
  let a := Z.abs z in
  if (a <=? 2 ^ 53)%Z then z
  else
    let ulp := (2 ^ (Z.log2 a - 52))%Z in
    let q := (a / ulp)%Z in
    let r := (a mod ulp)%Z in
    let q' := if (2 * r <? ulp)%Z then q
              else if (ulp <? 2 * r)%Z then (q + 1)%Z
              else if Z.even q then q else (q + 1)%Z in
    (Z.sgn z * (q' * ulp))%Z.

(** [int(np.ceil(n/2))]. The source goes through a 64-bit float.
    - Under true division [n/2] is the float nearest to the half of
      [n], which is half of the float nearest to [n]; [np.ceil] rounds
      it up to an integer and [int] converts that exactly.
    - Under floor division [n/2] is an integer, which [np.ceil]
      converts to the nearest float; [int] converts it back. *)
Definition half_ceil (true_div : bool) (n : Z) : Z :=
  if true_div then (- ((- round_float64 n) / 2))%Z
  else round_float64 (n / 2)%Z.

Definition unknown_volume_message (which : string) : string :=
  "unknown value for volume selection : " ++ which.

Definition pickvol (env : Env) (filenames fileidx which : pyval) : result Z :=
  match which with
  | PStr w =>
      if String.eqb (lower w) "first" then Ok 0%Z
      else if String.eqb (lower w) "middle" then
        f <- getitem filenames fileidx ;;
        shape <- load_shape env f ;;
        n <- getitem shape (PInt 3) ;;
        match n with
        | PInt k => Ok (half_ceil (true_division env) k)
        | _ => Raise TypeError
        end
      else Raise (Exception (unknown_volume_message w))
  | _ => Raise AttributeError
  end.

(** ** Build pipeline (lines 54-171) *)

(** The twelve nodes, under the names of the variables that hold them. *)
Inductive node : Type :=
| infosource | datasource | img2float | extract_ref | motion_correct
| skull_strip | coregister | normalize_affine | normalize_warp
| apply_warp | smooth | datasink.

(** The [name=] argument each node is created with. *)
Definition node_name (n : node) : string :=
  match n with
  | infosource => "infosource"
  | datasource => "datasource"
  | img2float => "img2float"
  | extract_ref => "extractref"
  | motion_correct => "realign"
  | skull_strip => "skull_strip"
  | coregister => "coregister"
  | normalize_affine => "normalize_affine"
  | normalize_warp => "normalize_warp"
  | apply_warp => "apply_warp"
  | smooth => "smooth"
  | datasink => "datasink"
  end.

Definition node_eq_dec (a b : node) : {a = b} + {a <> b}.
Proof. decide equality. Defined.

Definition node_eqb (a b : node) : bool :=
  if node_eq_dec a b then true else false.

(** The functions the script attaches to a source port. [pickvol] is
    defined by the script but attached nowhere. *)
Inductive selector_fn : Type :=
| Pickfirst.

Record edge : Type := mkEdge {
  src : node;
  src_port : string;
  selector : option selector_fn;
  dst : node;
  dst_port : string
}.

(** [preproc.connect(a, p, b, q)] and [preproc.connect(a, (p, f), b, q)]. *)
Definition conn (a : node) (p : string) (b : node) (q : string) : edge :=
  mkEdge a p None b q.

Definition conn_via (a : node) (p : string) (f : selector_fn)
    (b : node) (q : string) : edge :=
  mkEdge a p (Some f) b q.

(** The connect calls of the script, in program order. *)
Definition connect_calls : list edge :=
  [ conn infosource "subject_id" datasource "subject_id";            (* 82 *)
    conn datasource "bold" img2float "in_file";                      (* 90 *)
    conn img2float "out_file" extract_ref "in_file";                 (* 98 *)
    conn img2float "out_file" motion_correct "in_file";              (* 106 *)
    conn_via extract_ref "roi_file" Pickfirst motion_correct "ref_file"; (* 107 *)
    conn datasource "anat" skull_strip "in_file";                    (* 117 *)
    conn_via extract_ref "roi_file" Pickfirst coregister "reference"; (* 124 *)
    conn skull_strip "out_file" coregister "in_file";                (* 125 *)
    conn coregister "out_file" normalize_affine "in_file";           (* 132 *)
    conn coregister "out_file" normalize_warp "in_file";             (* 139 *)
    conn normalize_affine "out_matrix_file" normalize_warp "affine_file"; (* 140 *)
    conn motion_correct "out_file" apply_warp "in_file";             (* 151 *)
    conn normalize_affine "out_matrix_file" apply_warp "premat";     (* 152 *)
    conn normalize_warp "field_file" apply_warp "field_file";        (* 153 *)
    conn apply_warp "out_file" smooth "in_file";                     (* 161 *)
    conn infosource "subject_id" datasink "container";               (* 169 *)
    conn smooth "out_file" datasink "smooth_func";                   (* 170 *)
    conn normalize_warp "warped_file" datasink "norm_anat"           (* 171 *)
  ].

(** Line 61: [infosource.iterables = [('subject_id', subjects)]]. *)
Definition infosource_iterables (env : Env) : list (string * list string) :=
  [("subject_id", subjects env)].

(** The value an edge hands to its destination port: the source value,
    passed through the selector when the edge has one. *)
Definition apply_selector (f : selector_fn) (v : pyval) : result pyval :=
  match f with
  | Pickfirst => pickfirst v
  end.

Definition deliver (e : edge) (v : pyval) : result pyval :=
  match selector e with
  | Some f => apply_selector f v
  | None => Ok v
  end.

(** The destination (node, port) of an edge and the test that two
    edges share it. *)
Definition dest (e : edge) : node * string := (dst e, dst_port e).

Definition same_dest (e1 e2 : edge) : bool :=
  node_eqb (dst e1) (dst e2) && String.eqb (dst_port e1) (dst_port e2).

(** Directed paths along a list of edges. *)
Inductive path (es : list edge) : node -> node -> Prop :=
| path_edge : forall e, In e es -> path es (src e) (dst e)
| path_cons : forall e b, In e es -> path es (dst e) b -> path es (src e) b.

(** The order in which the script creates its nodes; [position] is the
    place of a node in it. *)
Definition creation_order : list node :=
  [ infosource; datasource; img2float; extract_ref; motion_correct;
    skull_strip; coregister; normalize_affine; normalize_warp;
    apply_warp; smooth; datasink ].

Fixpoint index_of (n : node) (ns : list node) : nat :=
  match ns with
  | [] => 0
  | m :: ms => if node_eqb n m then 0 else S (index_of n ms)
  end.

Definition position (n : node) : nat := index_of n creation_order.

(** An edge list respects a ranking when every edge goes upwards. *)
Definition respects (rank : node -> nat) (es : list edge) : bool :=
  forallb (fun e => (rank (src e) <? rank (dst e))%nat) es.

(** ** The workflow engine, as far as the script relies on it

    [pe.Workflow] is a library object: its [connect] and its validation
    are not part of the script. They are written here after the
    specification of the engine. *)

Module Engine.

Inductive build_error : Type :=
| UnknownPortError (n port : string)
| DuplicateInputError (n port : string)
| CycleDetectedError (names : list string)
| UnboundInputError (n port : string).

Inductive build (A : Type) : Type :=
| Built (a : A)
| Failed (e : build_error).

Arguments Built {A} a.
Arguments Failed {A} e.

(** The ports each node's interface declares. The interfaces live in
    the library, so the table is an input of the model. *)
Record port_table : Type := mkPorts {
  declares_in : node -> string -> bool;
  declares_out : node -> string -> bool
}.

(** Modelled from the spec: [connect] of the Graph component, absent
    from the script. It fails with [DuplicateInputError] if the
    destination port already has an edge, and with [UnknownPortError] if
    either named port is undeclared on its node; otherwise the edge is
    added. *)
Definition connect (ports : port_table) (g : list edge) (e : edge)
    : build (list edge) :=
  if existsb (same_dest e) g then
    Failed (DuplicateInputError (node_name (dst e)) (dst_port e))
  else if negb (declares_out ports (src e) (src_port e)) then
    Failed (UnknownPortError (node_name (src e)) (src_port e))
  else if negb (declares_in ports (dst e) (dst_port e)) then
    Failed (UnknownPortError (node_name (dst e)) (dst_port e))
  else Built (g ++ [e])%list.

(** The script's calls one after the other; the first failure aborts
    the construction. *)
Fixpoint connect_all (ports : port_table) (g : list edge)
    (calls : list edge) : build (list edge) :=
  match calls with
  | [] => Built g
  | e :: rest =>
      match connect ports g e with
      | Built g' => connect_all ports g' rest
      | Failed err => Failed err
      end
  end.

(** The nodes a list of edges mentions, each once, in order of first
    mention. *)
Fixpoint add_node (n : node) (ns : list node) : list node :=
  match ns with
  | [] => [n]
  | m :: ms => if node_eqb n m then ns else m :: add_node n ms
  end.

Definition nodes_of (es : list edge) : list node :=
  fold_left (fun acc e => add_node (dst e) (add_node (src e) acc)) es [].

Definition mem_node (n : node) (ns : list node) : bool :=
  existsb (node_eqb n) ns.

(** A node is blocked while one of its producers is still waiting. *)
Definition blocked (es : list edge) (waiting : list node) (n : node) : bool :=
  existsb (fun e => node_eqb (dst e) n && mem_node (src e) waiting) es.

(** Layered topological sort: every round emits the waiting nodes that
    no waiting node feeds. It returns the order found and the nodes
    left over; a non-empty remainder lies on or behind a cycle. *)
Fixpoint toposort (rounds : nat) (es : list edge)
    (waiting emitted : list node) : list node * list node :=
  match rounds with
  | O => (emitted, waiting)
  | S r =>
      match partition (fun n => negb (blocked es waiting n)) waiting with
      | ([], _) => (emitted, waiting)
      | (ready, rest) => toposort r es rest (emitted ++ ready)%list
      end
  end.

(** The required input ports of a node that no edge feeds. *)
Definition unbound (required : node -> list string) (es : list edge)
    (n : node) : list string :=
  filter (fun p =>
            negb (existsb (fun e => node_eqb (dst e) n
                                    && String.eqb (dst_port e) p) es))
         (required n).

Fixpoint first_unbound (required : node -> list string) (es : list edge)
    (ns : list node) : option (node * string) :=
  match ns with
  | [] => None
  | n :: rest =>
      match unbound required es n with
      | p :: _ => Some (n, p)
      | [] => first_unbound required es rest
      end
  end.

(** Modelled from the spec: [freeze] of the Graph component, absent
    from the script. It validates acyclicity, failing with
    [CycleDetectedError] and the names of the participating nodes, and
    validates that every required input is satisfiable, failing with
    [UnboundInputError]. [required] lists, per node, the input ports
    its interface requires and that are not fixed at construction. On
    success the execution order is returned. *)
Definition freeze (required : node -> list string) (es : list edge)
    : build (list node) :=
  let ns := nodes_of es in
  match toposort (List.length ns) es ns [] with
  | (order, []) =>
      match first_unbound required es ns with
      | Some (n, p) => Failed (UnboundInputError (node_name n) p)
      | None => Built order
      end
  | (_, stuck) => Failed (CycleDetectedError (map node_name stuck))
  end.

End Engine.

(** ** Schemata, run and the command line (lines 173-200) *)

(** The calls through which the script acts on the outside. *)
Inductive call : Type :=
| WriteGraph (dotfilename graph2use : string)
| OsRename (from to : string)
| WorkflowRun
| Rmtree (path : string).

(** Whether a call raises, given the calls made before it. *)
Definition oracle : Type := list call -> call -> option exn.

(** The state of the process when the interpreter stops: the calls it
    made, in order, and the exception that ended it, if any. *)
Record process : Type := mkProcess {
  performed : list call;
  uncaught : option exn
}.

(** An uncaught exception ends the interpreter with status 1; the
    script never calls [sys.exit]. *)
Definition exit_status (p : process) : Z :=
  match uncaught p with
  | None => 0%Z
  | Some _ => 1%Z
  end.

Fixpoint perform (raises : oracle) (history todo : list call) : process :=
  match todo with
  | [] => mkProcess history None
  | c :: rest =>
      match raises history c with
      | Some e => mkProcess (history ++ [c])%list (Some e)
      | None => perform raises (history ++ [c])%list rest
      end
  end.

Definition make_schemata : list call :=
  [ WriteGraph "preproc" "orig";
    OsRename "preproc.dot" (dotdir ++ "/preproc.dot");
    OsRename "preproc_detailed.dot" (dotdir ++ "/preproc_detailed.dot");
    OsRename "preproc.dot.png" (figdir ++ "/preproc.dot.png");
    OsRename "preproc_detailed.dot.png" (figdir ++ "/preproc_detailed.dot.png") ].

Definition run_preproc : list call :=
  [ WorkflowRun; Rmtree "preproc" ].

(** The [if __name__ == '__main__'] block. Nothing in it prints. *)
Definition main (raises : oracle) (argv : list string) : process :=
  if (1 <? List.length argv)%nat then
    match nth_error argv 1 with
    | Some arg =>
        if String.eqb arg "plot" then perform raises [] make_schemata
        else if String.eqb arg "run" then perform raises [] run_preproc
        else mkProcess [] None
    | None => mkProcess [] None
    end
  else mkProcess [] None.

(** ** The module level (lines 8-171)

    Before the main block the script imports its libraries, creates the
    workflow and the twelve nodes, assigns inputs and connects the
    nodes. Each of these statements calls into a library and may raise
    there (an import that fails, an input the interface rejects, such
    as a directory that does not exist); the first one that raises ends
    the script. *)

Inductive step : Type :=
| Import (module : string)
| MakeWorkflow (name : string)
| MakeInterface (n : node) (interface : string)
| MakeNode (n : node) (mapped : bool)
| SetIterables (n : node) (axes : list (string * list string))
| SetInput (n : node) (field : string)
| Connect (e : edge).

(** Whether a statement raises, given the statements completed before. *)
Definition library : Type := list step -> step -> option exn.

(** The statements of the module level in program order. The keyword
    arguments of the interfaces and the values assigned to inputs are
    those of the source and are not repeated here. *)
Definition module_level (env : Env) : list step :=
  [ Import "os"; Import "sys"; Import "glob"; Import "shutil";     (* 8-11 *)
    Import "nipype.interfaces.fsl";                                 (* 14 *)
    Import "nipype.interfaces.utility";                             (* 15 *)
    Import "nipype.pipeline.engine";                                (* 16 *)
    Import "nipype.interfaces.io";                                  (* 17 *)
    MakeWorkflow "preproc";                                         (* 54 *)
    MakeInterface infosource "util.IdentityInterface";              (* 58 *)
    MakeNode infosource false;                                      (* 57 *)
    SetIterables infosource (infosource_iterables env);             (* 61 *)
    MakeInterface datasource "io.DataGrabber";                      (* 65 *)
    MakeNode datasource false;                                      (* 64 *)
    SetInput datasource "base_directory";                           (* 71 *)
    SetInput datasource "template";                                 (* 72 *)
    SetInput datasource "field_template";                           (* 73 *)
    SetInput datasource "template_args";                            (* 77 *)
    SetInput datasource "sorted";                                   (* 81 *)
    Connect (conn infosource "subject_id" datasource "subject_id"); (* 82 *)
    MakeInterface img2float "fsl.ImageMaths";                       (* 86 *)
    MakeNode img2float true;                                        (* 85 *)
    Connect (conn datasource "bold" img2float "in_file");           (* 90 *)
    MakeInterface extract_ref "fsl.ExtractROI";                     (* 94 *)
    MakeNode extract_ref true;                                      (* 93 *)
    Connect (conn img2float "out_file" extract_ref "in_file");      (* 98 *)
    MakeInterface motion_correct "fsl.MCFLIRT";                     (* 102 *)
    MakeNode motion_correct true;                                   (* 101 *)
    Connect (conn img2float "out_file" motion_correct "in_file");   (* 106 *)
    Connect (conn_via extract_ref "roi_file" Pickfirst
                      motion_correct "ref_file");                   (* 107 *)
    MakeInterface skull_strip "fsl.BET";                            (* 114 *)
    MakeNode skull_strip false;                                     (* 113 *)
    Connect (conn datasource "anat" skull_strip "in_file");         (* 117 *)
    MakeInterface coregister "fsl.FLIRT";                           (* 121 *)
    MakeNode coregister false;                                      (* 120 *)
    Connect (conn_via extract_ref "roi_file" Pickfirst
                      coregister "reference");                      (* 124 *)
    Connect (conn skull_strip "out_file" coregister "in_file");     (* 125 *)
    MakeInterface normalize_affine "fsl.FLIRT";                     (* 129 *)
    MakeNode normalize_affine false;                                (* 128 *)
    Connect (conn coregister "out_file" normalize_affine "in_file"); (* 132 *)
    MakeInterface normalize_warp "fsl.FNIRT";                       (* 136 *)
    MakeNode normalize_warp false;                                  (* 135 *)
    Connect (conn coregister "out_file" normalize_warp "in_file");  (* 139 *)
    Connect (conn normalize_affine "out_matrix_file"
                  normalize_warp "affine_file");                    (* 140 *)
    MakeInterface apply_warp "fsl.ApplyWarp";                       (* 147 *)
    MakeNode apply_warp true;                                       (* 146 *)
    Connect (conn motion_correct "out_file" apply_warp "in_file");  (* 151 *)
    Connect (conn normalize_affine "out_matrix_file"
                  apply_warp "premat");                             (* 152 *)
    Connect (conn normalize_warp "field_file" apply_warp "field_file"); (* 153 *)
    MakeInterface smooth "fsl.IsotropicSmooth";                     (* 157 *)
    MakeNode smooth true;                                           (* 156 *)
    Connect (conn apply_warp "out_file" smooth "in_file");          (* 161 *)
    MakeInterface datasink "io.DataSink";                           (* 165 *)
    MakeNode datasink false;                                        (* 164 *)
    SetInput datasink "base_directory";                             (* 168 *)
    Connect (conn infosource "subject_id" datasink "container");    (* 169 *)
    Connect (conn smooth "out_file" datasink "smooth_func");        (* 170 *)
    Connect (conn normalize_warp "warped_file" datasink "norm_anat") (* 171 *)
  ].

(** The statements completed, in order, and the statement that raised
    with its exception, if one did. *)
Fixpoint construct (lib : library) (completed todo : list step)
    : list step * option (step * exn) :=
  match todo with
  | [] => (completed, None)
  | s :: rest =>
      match lib completed s with
      | Some e => (completed, Some (s, e))
      | None => construct lib (completed ++ [s])%list rest
      end
  end.

(** The connections and the iterables that completed statements made. *)
Definition edges_of (steps : list step) : list edge :=
  flat_map (fun s => match s with Connect e => [e] | _ => [] end) steps.

Definition iterables_of (steps : list step) : list (string * list string) :=
  flat_map (fun s => match s with SetIterables _ axes => axes | _ => [] end)
           steps.

(** The script as a whole. The main block is reached only when the
    module level completed; an exception raised before is uncaught and
    ends the process, no call of the main block being made. *)
Record script_result : Type := mkScript {
  constructed : list step;
  workflow : list edge;
  iterables : list (string * list string);
  proc : process
}.

Definition script (env : Env) (lib : library) (raises : oracle)
    (argv : list string) : script_result :=
  match construct lib [] (module_level env) with
  | (completed, Some (_, e)) =>
      mkScript completed (edges_of completed) (iterables_of completed)
               (mkProcess [] (Some e))
  | (completed, None) =>
      mkScript completed (edges_of completed) (iterables_of completed)
               (main raises argv)
  end.

(** ** The selectors with their accesses to the outside

    To speak of what a selector reads and writes, the two selectors are
    written a second time as computations that return, with their
    result, the list of their accesses to the outside, in order. *)

Inductive access : Type :=
| ImageLoad (file : pyval)   (* [nibabel.load(file)]: reads the file *)
| OutsideCall (c : call).    (* a call that changes the outside *)

Definition io (A : Type) : Type := Env -> result A * list access.

Definition io_ret {A : Type} (a : A) : io A := fun _ => (Ok a, []).

Definition io_raise {A : Type} (e : exn) : io A := fun _ => (Raise e, []).

(** A step that touches nothing outside. *)
Definition io_pure {A : Type} (r : result A) : io A := fun _ => (r, []).

Definition io_bind {A B : Type} (m : io A) (k : A -> io B) : io B :=
  fun env =>
    match m env with
    | (Ok a, t) => let (r, t') := k a env in (r, (t ++ t')%list)
    | (Raise e, t) => (Raise e, t)
    end.

Notation "x <~ m ;; k" := (io_bind m (fun x => k))
  (at level 61, m at next level, right associativity).

(** [load(f).get_shape()]: one read of the image file [f]. *)
Definition io_load_shape (f : pyval) : io pyval :=
  fun env => (load_shape env f, [ImageLoad f]).

(** The division of the interpreter; not an access to the outside. *)
Definition io_half_ceil (k : Z) : io Z :=
  fun env => (Ok (half_ceil (true_division env) k), []).

Definition pickfirst_io (files : pyval) : io pyval :=
  if isinstance_list files then io_pure (getitem files (PInt 0))
  else io_ret files.

Definition pickvol_io (filenames fileidx which : pyval) : io Z :=
  match which with
  | PStr w =>
      if String.eqb (lower w) "first" then io_ret 0%Z
      else if String.eqb (lower w) "middle" then
        f <~ io_pure (getitem filenames fileidx) ;;
        shape <~ io_load_shape f ;;
        n <~ io_pure (getitem shape (PInt 3)) ;;
        match n with
        | PInt k => io_half_ceil k
        | _ => io_raise TypeError
        end
      else io_raise (Exception (unknown_volume_message w))
  | _ => io_raise AttributeError
  end.

(** ** Sample environments, for evaluation *)

(** A data directory in which [found] are the paths matching the
    subject pattern and [volumes] gives the number of time points of
    the loadable images (64 x 64 x 30 voxels each). *)
Definition sample_env (true_div : bool) (found : list string)
    (volumes : string -> option Z) : Env :=
  mkEnv
    (fun pattern =>
       if String.eqb pattern "/home/brain/bart/data/sub*" then found else [])
    (fun f =>
       match f with
       | PStr file =>
           match volumes file with
           | Some n => Ok (PTuple [PInt 64; PInt 64; PInt 30; PInt n])
           | None => Raise (LibraryError "cannot load image")
           end
       | _ => Raise (LibraryError "not a file name")
       end)
    true_div.

Definition one_image (file : string) (n : Z) : string -> option Z :=
  fun f => if String.eqb f file then Some n else None.

Definition no_image : string -> option Z := fun _ => None.

(** An engine and a filesystem on which no call raises. *)
Definition never_raises : oracle := fun _ _ => None.

(** An engine whose run raises, as when a node of the workflow crashed. *)
Definition run_raises : oracle :=
  fun _ c =>
    match c with
    | WorkflowRun => Some (LibraryError "Workflow did not execute cleanly")
    | _ => None
    end.

(** A library in which every statement of the module level succeeds. *)
Definition library_ok : library := fun _ _ => None.

(** A library whose data grabber rejects the data directory, as when
    the directory does not exist. *)
Definition missing_data_directory : library :=
  fun _ s =>
    match s with
    | SetInput n field =>
        if node_eqb n datasource && String.eqb field "base_directory"
        then Some (LibraryError
                     "TraitError: base_directory must be an existing directory")
        else None
    | _ => None
    end.

(** A port table under which every port the script names is declared. *)
Definition permissive : Engine.port_table :=
  Engine.mkPorts (fun _ _ => true) (fun _ _ => true).

(** The process that made no call and ended normally. *)
Definition idle : process := mkProcess [] None.

(** ** Reachability *)

(** [reaches fuel es a b]: some path of at most [fuel] edges of [es]
    leads from [a] to [b]. *)
Fixpoint reaches (fuel : nat) (es : list edge) (a b : node) : bool :=
  match fuel with
  | O => false
  | S f =>
      existsb (fun e => node_eqb (src e) a
                        && (node_eqb (dst e) b || reaches f es (dst e) b)) es
  end.

(** The calls of the operation the first argument selects. *)
Definition operation (arg : string) : list call :=
  if String.eqb arg "plot" then make_schemata
  else if String.eqb arg "run" then run_preproc
  else [].

(** * Properties *)

(** ** Strings: order, sorting, splitting *)

Section StringOrder.

Lemma string_leb_refl (s : string) : String.leb s s = true.
Proof.
  destruct (String.leb_total s s) as [H | H]; exact H.
Qed.

Lemma string_compare_cons (x y : ascii) (a b : string) :
  String.compare (String x a) (String y b) =
  match N.compare (N_of_ascii x) (N_of_ascii y) with
  | Eq => String.compare a b
  | c => c
  end.
Proof. reflexivity. Qed.

Lemma string_leb_trans (a b c : string) :
  String.leb a b = true -> String.leb b c = true -> String.leb a c = true.
Proof.
  unfold String.leb. revert b c.
  induction a as [| x a IH]; intros [| y b] [| z c]; simpl; try easy.
  fold (String.compare a b) (String.compare b c) (String.compare a c).
  unfold Ascii.compare.
  destruct (N.compare_spec (N_of_ascii x) (N_of_ascii y)) as [Hxy | Hxy | Hxy];
    destruct (N.compare_spec (N_of_ascii y) (N_of_ascii z)) as [Hyz | Hyz | Hyz];
    destruct (N.compare_spec (N_of_ascii x) (N_of_ascii z)) as [Hxz | Hxz | Hxz];
    try easy; try lia.
  apply IH.
Qed.

End StringOrder.

Section Sorting.

Lemma insert_sorted_in (x y : string) (xs : list string) :
  In y (insert_sorted x xs) <-> y = x \/ In y xs.
Proof.
  induction xs as [| z zs IH]; simpl.
  - intuition.
  - destruct (String.leb x z); simpl; rewrite ?IH; intuition.
Qed.

Lemma sorted_in (y : string) (xs : list string) :
  In y (sorted xs) <-> In y xs.
Proof.
  induction xs as [| x xs IH]; simpl.
  - tauto.
  - rewrite insert_sorted_in, IH. intuition.
Qed.

Lemma insert_sorted_perm (x : string) (xs : list string) :
  Permutation (x :: xs) (insert_sorted x xs).
Proof.
  induction xs as [| z zs IH]; simpl.
  - apply Permutation_refl.
  - destruct (String.leb x z).
    + apply Permutation_refl.
    + eapply perm_trans; [apply perm_swap |].
      apply perm_skip, IH.
Qed.

Lemma sorted_perm (xs : list string) : Permutation xs (sorted xs).
Proof.
  induction xs as [| x xs IH]; simpl.
  - apply perm_nil.
  - eapply perm_trans; [apply perm_skip, IH | apply insert_sorted_perm].
Qed.

Lemma insert_sorted_ordered (x : string) (xs : list string) :
  LocallySorted string_le xs -> LocallySorted string_le (insert_sorted x xs).
Proof.
  induction 1 as [| z | z w ws Hs IH Hzw]; simpl.
  - constructor.
  - destruct (String.leb x z) eqn:E.
    + constructor; [constructor | exact E].
    + constructor; [constructor |].
      destruct (String.leb_total x z) as [H | H]; [congruence | exact H].
  - destruct (String.leb x z) eqn:E.
    + constructor; [constructor; assumption | exact E].
    + simpl in IH. destruct (String.leb x w) eqn:E'.
      * constructor; [exact IH |].
        destruct (String.leb_total x z) as [H | H]; [congruence | exact H].
      * constructor; [exact IH | exact Hzw].
Qed.

Lemma sorted_ordered (xs : list string) : LocallySorted string_le (sorted xs).
Proof.
  induction xs as [| x xs IH]; simpl.
  - constructor.
  - apply insert_sorted_ordered, IH.
Qed.

(** The head of a sorted list is a least element of the input. *)
Lemma sorted_head_least (xs : list string) (m : string) (rest : list string) :
  sorted xs = m :: rest ->
  In m xs /\ forall q, In q xs -> String.leb m q = true.
Proof.
  revert m rest.
  induction xs as [| x xs IH]; intros m rest; simpl.
  - discriminate.
  - destruct (sorted xs) as [| m' rest'] eqn:E; simpl.
    + intros H. injection H as <- _.
      assert (xs = []) as ->.
      { destruct xs as [| y ys]; [reflexivity |].
        assert (In y (sorted (y :: ys))) as Hin
            by (apply sorted_in; left; reflexivity).
        rewrite E in Hin. destruct Hin. }
      split; [left; reflexivity |].
      intros q [<- | []]. apply string_leb_refl.
    + destruct (IH m' rest' eq_refl) as [Hin Hleast].
      destruct (String.leb x m') eqn:Hx; intros H; injection H as <- _.
      * split; [left; reflexivity |].
        intros q [<- | Hq]; [apply string_leb_refl |].
        eapply string_leb_trans; [exact Hx | apply Hleast, Hq].
      * split; [right; exact Hin |].
        intros q [<- | Hq]; [| apply Hleast, Hq].
        destruct (String.leb_total x m') as [H | H]; [congruence | exact H].
Qed.

Lemma sorted_nil_iff (xs : list string) : sorted xs = [] <-> xs = [].
Proof.
  split; [| intros ->; reflexivity].
  intros H. destruct xs as [| x xs]; [reflexivity |].
  assert (In x (sorted (x :: xs))) as Hin by (apply sorted_in; left; reflexivity).
  rewrite H in Hin. destruct Hin.
Qed.

End Sorting.

Section Splitting.

Lemma split_not_nil (sep : ascii) (s : string) : split sep s <> [].
Proof.
  destruct s as [| c s]; simpl; [discriminate |].
  destruct (Ascii.eqb c sep); [discriminate |].
  destruct (split sep s); discriminate.
Qed.

Lemma split_free (sep : ascii) (s : string) :
  free_of sep s = true -> split sep s = [s].
Proof.
  induction s as [| c s IH]; simpl; [reflexivity |].
  destruct (Ascii.eqb c sep); simpl; [discriminate |].
  intros H. rewrite (IH H). reflexivity.
Qed.

Lemma last_cons_not_nil {A : Type} (x d : A) (l : list A) :
  l <> [] -> List.last (x :: l) d = List.last l d.
Proof. destruct l; [congruence | reflexivity]. Qed.

Lemma split_append_length (sep : ascii) (a b : string) :
  (2 <= List.length (split sep (a ++ String sep b)))%nat.
Proof.
  induction a as [| c a IH]; simpl.
  - rewrite Ascii.eqb_refl. simpl.
    destruct (split sep b) eqn:Eb; [destruct (split_not_nil _ _ Eb) |].
    simpl. lia.
  - destruct (Ascii.eqb c sep); simpl; [lia |].
    destruct (split sep (a ++ String sep b)); simpl in *; lia.
Qed.

Lemma last_split_append (sep : ascii) (a b : string) :
  List.last (split sep (a ++ String sep b)) EmptyString =
  List.last (split sep b) EmptyString.
Proof.
  induction a as [| c a IH]; simpl.
  - rewrite Ascii.eqb_refl. apply last_cons_not_nil, split_not_nil.
  - destruct (Ascii.eqb c sep).
    + rewrite last_cons_not_nil by apply split_not_nil. exact IH.
    + pose proof (split_append_length sep a b) as H2.
      destruct (split sep (a ++ String sep b)) as [| p [| q r]];
        simpl in H2; try lia.
      exact IH.
Qed.

Lemma path_tail_join (dir name : string) :
  free_of os_path_sep name = true ->
  path_tail (dir ++ "/" ++ name) = name.
Proof.
  intros H. unfold path_tail.
  change ("/" ++ name) with (String os_path_sep name).
  rewrite last_split_append, (split_free _ _ H). reflexivity.
Qed.

End Splitting.

(** ** The selectors *)

Section Selectors.

Lemma seq_getitem_zero {A : Type} (x : A) (xs : list A) :
  seq_getitem (x :: xs) 0 = Ok x.
Proof.
  unfold seq_getitem. simpl Z.ltb. cbv iota.
  replace ((0 <? 0)%Z || (Z.of_nat (List.length (x :: xs)) <=? 0)%Z) with false.
  - reflexivity.
  - symmetry. apply orb_false_iff. split; [reflexivity |].
    apply Z.leb_gt. simpl List.length. lia.
Qed.

(** C3. For every non-empty list [files], [pickfirst files] returns
    [files[0]], its first element; every value that is not a list is
    returned unchanged. *)
Theorem pickfirst_spec :
  (forall x xs, pickfirst (PList (x :: xs)) = Ok x) /\
  (forall v, isinstance_list v = false -> pickfirst v = Ok v).
Proof.
  split.
  - intros x xs. unfold pickfirst. simpl isinstance_list. cbv iota.
    simpl getitem. apply seq_getitem_zero.
  - intros v Hv. unfold pickfirst. rewrite Hv. reflexivity.
Qed.

Lemma pickfirst_spec_witness :
  pickfirst (PList [PStr "run1.nii.gz"; PStr "run2.nii.gz"]) = Ok (PStr "run1.nii.gz")
  /\ isinstance_list (PStr "run1.nii.gz") = false
  /\ pickfirst (PStr "run1.nii.gz") = Ok (PStr "run1.nii.gz").
Proof.
  split; [apply (proj1 pickfirst_spec) |].
  split; [reflexivity |].
  apply (proj2 pickfirst_spec). reflexivity.
Defined.

(** C9. [pickfirst] applied to the empty list raises [IndexError]; so
    an edge that carries [pickfirst] and receives an empty list fails
    instead of handing the empty list to its destination. *)
Theorem pickfirst_empty_list :
  pickfirst (PList []) = Raise IndexError /\
  (forall e, In e connect_calls -> selector e = Some Pickfirst ->
             deliver e (PList []) = Raise IndexError) /\
  (exists e, In e connect_calls /\ selector e = Some Pickfirst).
Proof.
  split; [reflexivity |]. split.
  - intros e _ He. unfold deliver. rewrite He. reflexivity.
  - exists (conn_via extract_ref "roi_file" Pickfirst coregister "reference").
    split; [simpl; tauto | reflexivity].
Qed.

Lemma pickfirst_empty_list_witness :
  deliver (conn_via extract_ref "roi_file" Pickfirst motion_correct "ref_file")
          (PList []) = Raise IndexError.
Proof.
  apply (proj1 (proj2 pickfirst_empty_list)).
  - simpl. tauto.
  - reflexivity.
Defined.

(** C4. For every string [which] whose lowercase form is neither
    'first' nor 'middle', [pickvol(filenames, fileidx, which)] raises
    an exception whose message names [which], and returns no index. *)
Theorem pickvol_unknown_policy :
  forall env filenames fileidx which,
    lower which <> "first" -> lower which <> "middle" ->
    pickvol env filenames fileidx (PStr which)
      = Raise (Exception ("unknown value for volume selection : " ++ which))
    /\ forall idx, pickvol env filenames fileidx (PStr which) <> Ok idx.
Proof.
  intros env filenames fileidx which Hf Hm.
  assert (pickvol env filenames fileidx (PStr which)
          = Raise (Exception ("unknown value for volume selection : " ++ which)))
    as H.
  { unfold pickvol.
    apply String.eqb_neq in Hf. apply String.eqb_neq in Hm.
    rewrite Hf, Hm. reflexivity. }
  split; [exact H |].
  intros idx. rewrite H. discriminate.
Qed.

Lemma pickvol_unknown_policy_witness :
  pickvol (sample_env false [] no_image) (PList [PStr "bold.nii.gz"]) (PInt 0)
          (PStr "Last")
    = Raise (Exception "unknown value for volume selection : Last").
Proof.
  apply (pickvol_unknown_policy (sample_env false [] no_image)
           (PList [PStr "bold.nii.gz"]) (PInt 0) "Last").
  - vm_compute. discriminate.
  - vm_compute. discriminate.
Defined.

End Selectors.

(** ** The float detour of [pickvol] *)

Section FloatRounding.

Local Open Scope Z_scope.

Lemma round_float64_exact (z : Z) :
  Z.abs z <= 2 ^ 53 -> round_float64 z = z.
Proof.
  intros H. unfold round_float64.
  destruct (Z.leb_spec (Z.abs z) (2 ^ 53)); [reflexivity | lia].
Qed.

Lemma round_float64_near (z : Z) :
  2 ^ 53 < z ->
  exists u, 0 < u /\ 2 ^ 52 * u <= z /\ 2 * Z.abs (round_float64 z - z) <= u.
Proof.
  intros Hz.
  assert (0 < z) as Hpos by (change (2 ^ 53) with 9007199254740992 in Hz; lia).
  unfold round_float64. rewrite (Z.abs_eq z) by lia.
  destruct (Z.leb_spec z (2 ^ 53)) as [H | _]; [lia |].
  rewrite (Z.sgn_pos z Hpos), Z.mul_1_l.
  assert (53 <= Z.log2 z) as Hlog.
  { rewrite <- (Z.log2_pow2 53) by lia. apply Z.log2_le_mono. lia. }
  destruct (Z.log2_spec z Hpos) as [Hlo _].
  replace (Z.log2 z) with (52 + (Z.log2 z - 52)) in Hlo at 1 by lia.
  rewrite Z.pow_add_r in Hlo by lia.
  assert (2 <= 2 ^ (Z.log2 z - 52)) as Hu.
  { change 2 with (2 ^ 1) at 1. apply Z.pow_le_mono_r; lia. }
  set (u := 2 ^ (Z.log2 z - 52)) in *.
  exists u. split; [lia |]. split; [exact Hlo |].
  pose proof (Z.div_mod z u ltac:(lia)) as Hdm.
  pose proof (Z.mod_pos_bound z u ltac:(lia)) as Hr.
  set (q := z / u) in *. set (r := z mod u) in *.
  rewrite (Z.mul_comm u q) in Hdm.
  destruct (Z.ltb_spec (2 * r) u) as [H1 | H1].
  - lia.
  - destruct (Z.ltb_spec u (2 * r)) as [H2 | H2].
    + rewrite Z.mul_add_distr_r. lia.
    + destruct (Z.even q); [| rewrite Z.mul_add_distr_r]; lia.
Qed.

Lemma round_float64_positive (z : Z) :
  1 <= z -> 0 < round_float64 z /\ 2 * round_float64 z <= 3 * z.
Proof.
  intros Hz.
  destruct (Z.le_gt_cases z (2 ^ 53)) as [H | H].
  - rewrite round_float64_exact by (rewrite Z.abs_eq; lia). lia.
  - destruct (round_float64_near z H) as [u [Hu [Hlo Hnear]]].
    change (2 ^ 52) with 4503599627370496 in Hlo. lia.
Qed.

(** Up to 2^53 the detour through a float is exact. *)
Lemma half_ceil_exact (b : bool) (k : Z) :
  Z.abs k <= 2 ^ 53 ->
  half_ceil b k = if b then (k + 1) / 2 else k / 2.
Proof.
  intros H. unfold half_ceil. destruct b.
  - rewrite (round_float64_exact k H).
    pose proof (Z.div_mod (- k) 2 ltac:(lia)) as H1.
    pose proof (Z.mod_pos_bound (- k) 2 ltac:(lia)) as H2.
    pose proof (Z.div_mod (k + 1) 2 ltac:(lia)) as H3.
    pose proof (Z.mod_pos_bound (k + 1) 2 ltac:(lia)) as H4.
    lia.
  - apply round_float64_exact.
    pose proof (Z.div_mod k 2 ltac:(lia)) as H1.
    pose proof (Z.mod_pos_bound k 2 ltac:(lia)) as H2.
    change (2 ^ 53) with 9007199254740992 in *. lia.
Qed.

Lemma half_ceil_bounds (b : bool) (k : Z) :
  (1 <= k)%Z ->
  (0 <= half_ceil b k <= k)%Z /\
  (2 <= k -> 0 < half_ceil b k < k)%Z /\
  (k = 1 -> half_ceil b k = if b then 1 else 0)%Z.
Proof.
  intros Hk.
  split; [| split]; [| | intros ->; destruct b; reflexivity].
  - destruct (Z.le_gt_cases k (2 ^ 53)) as [H | H].
    + rewrite half_ceil_exact by (rewrite Z.abs_eq; lia).
      pose proof (Z.div_mod (k + 1) 2 ltac:(lia)) as H1.
      pose proof (Z.mod_pos_bound (k + 1) 2 ltac:(lia)) as H2.
      pose proof (Z.div_mod k 2 ltac:(lia)) as H3.
      pose proof (Z.mod_pos_bound k 2 ltac:(lia)) as H4.
      destruct b; lia.
    + change (2 ^ 53) with 9007199254740992 in H.
      unfold half_ceil. destruct b.
      * destruct (round_float64_positive k Hk) as [Hp Hq].
        pose proof (Z.div_mod (- round_float64 k) 2 ltac:(lia)) as H1.
        pose proof (Z.mod_pos_bound (- round_float64 k) 2 ltac:(lia)) as H2.
        lia.
      * pose proof (Z.div_mod k 2 ltac:(lia)) as H3.
        pose proof (Z.mod_pos_bound k 2 ltac:(lia)) as H4.
        destruct (round_float64_positive (k / 2) ltac:(lia)) as [Hp Hq].
        lia.
  - intros H2k.
    destruct (Z.le_gt_cases k (2 ^ 53)) as [H | H].
    + rewrite half_ceil_exact by (rewrite Z.abs_eq; lia).
      pose proof (Z.div_mod (k + 1) 2 ltac:(lia)) as H1.
      pose proof (Z.mod_pos_bound (k + 1) 2 ltac:(lia)) as H2.
      pose proof (Z.div_mod k 2 ltac:(lia)) as H3.
      pose proof (Z.mod_pos_bound k 2 ltac:(lia)) as H4.
      destruct b; lia.
    + change (2 ^ 53) with 9007199254740992 in H.
      unfold half_ceil. destruct b.
      * destruct (round_float64_positive k Hk) as [Hp Hq].
        pose proof (Z.div_mod (- round_float64 k) 2 ltac:(lia)) as H1.
        pose proof (Z.mod_pos_bound (- round_float64 k) 2 ltac:(lia)) as H2.
        lia.
      * pose proof (Z.div_mod k 2 ltac:(lia)) as H3.
        pose proof (Z.mod_pos_bound k 2 ltac:(lia)) as H4.
        destruct (round_float64_positive (k / 2) ltac:(lia)) as [Hp Hq].
        lia.
Qed.

(** Beyond 2^53 the float decides: the half of 2^53 + 1 comes out
    as 2^52 under true division, and the half of 2^54 + 2 as 2^53 under
    floor division. *)
Example half_ceil_beyond_exact_range :
  half_ceil true (2 ^ 53 + 1) = 2 ^ 52 /\ half_ceil false (2 ^ 54 + 2) = 2 ^ 53.
Proof. split; reflexivity. Qed.

End FloatRounding.

(** ** Volume selection *)

Section VolumeSelection.

Lemma pickvol_first env filenames fileidx which :
  lower which = "first" ->
  pickvol env filenames fileidx (PStr which) = Ok 0%Z.
Proof.
  intros H. unfold pickvol. rewrite H. reflexivity.
Qed.

Lemma pickvol_middle env filenames fileidx which :
  lower which = "middle" ->
  pickvol env filenames fileidx (PStr which) =
    (f <- getitem filenames fileidx ;;
     shape <- load_shape env f ;;
     n <- getitem shape (PInt 3) ;;
     match n with
     | PInt k => Ok (half_ceil (true_division env) k)
     | _ => Raise TypeError
     end).
Proof.
  intros H. unfold pickvol. rewrite H. reflexivity.
Qed.

(** Only the two keywords of the source yield an index. *)
Lemma pickvol_ok_inv env filenames fileidx which idx :
  pickvol env filenames fileidx which = Ok idx ->
  exists w, which = PStr w /\ (lower w = "first" \/ lower w = "middle").
Proof.
  unfold pickvol. destruct which as [| z | w | items | items]; try discriminate.
  intros H. exists w. split; [reflexivity |].
  destruct (String.eqb_spec (lower w) "first") as [E | E]; [left; exact E |].
  destruct (String.eqb_spec (lower w) "middle") as [E' | E']; [right; exact E' |].
  discriminate.
Qed.

(** C5, as stated, fails: the selector has no INDEX(n) policy. A
    keyword spelling an index is rejected like any unknown keyword, an
    integer is not accepted in place of the keyword, and no value of
    [which] makes the selector return a chosen index, here 3, whatever
    the image. *)
Lemma pickvol_has_no_index_policy :
  pickvol (sample_env false [] (one_image "bold.nii.gz" 10))
          (PList [PStr "bold.nii.gz"]) (PInt 0) (PStr "index(3)")
    = Raise (Exception "unknown value for volume selection : index(3)")
  /\ pickvol (sample_env false [] (one_image "bold.nii.gz" 10))
             (PList [PStr "bold.nii.gz"]) (PInt 0) (PInt 3)
    = Raise AttributeError
  /\ ~ (exists which, forall env filenames fileidx,
           pickvol env filenames fileidx which = Ok 3%Z).
Proof.
  split; [reflexivity |]. split; [reflexivity |].
  intros [which H].
  pose proof (H (sample_env false [] no_image)
                (PList [PStr "bold.nii.gz"]) (PInt 0)) as H0.
  destruct (pickvol_ok_inv _ _ _ _ _ H0) as [w [-> [E | E]]].
  - rewrite (pickvol_first _ _ _ _ E) in H0. discriminate.
  - rewrite (pickvol_middle _ _ _ _ E) in H0. discriminate.
Qed.

(** C5, amended. The selector resolves two policies, chosen by the
    keyword [which] read without regard to case: 'first' resolves to
    index 0 for every input; 'middle' resolves, when
    [filenames[fileidx]] loads and has a fourth dimension of [k] time
    points with [k] of magnitude at most 2^53 (where the float
    computation of the source is exact), to half of [k] (rounded up
    under true division, down under floor division). No other value of
    [which] resolves to an index. *)
Theorem pickvol_policies :
  (forall env filenames fileidx which,
      lower which = "first" ->
      pickvol env filenames fileidx (PStr which) = Ok 0%Z) /\
  (forall env filenames fileidx which f shape k,
      lower which = "middle" ->
      getitem filenames fileidx = Ok f ->
      load_shape env f = Ok shape ->
      getitem shape (PInt 3) = Ok (PInt k) ->
      (Z.abs k <= 2 ^ 53)%Z ->
      pickvol env filenames fileidx (PStr which)
        = Ok (if true_division env then (k + 1) / 2 else k / 2)%Z) /\
  (forall env filenames fileidx which idx,
      pickvol env filenames fileidx which = Ok idx ->
      exists w, which = PStr w /\ (lower w = "first" \/ lower w = "middle")).
Proof.
  split; [exact pickvol_first |]. split; [| exact pickvol_ok_inv].
  intros env filenames fileidx which f shape k Hw Hf Hs Hk Hbound.
  rewrite (pickvol_middle _ _ _ _ Hw), Hf. simpl.
  rewrite Hs. simpl. rewrite Hk. simpl.
  rewrite (half_ceil_exact _ _ Hbound). reflexivity.
Qed.

Lemma pickvol_policies_witness :
  pickvol (sample_env true [] (one_image "bold.nii.gz" 7))
          (PList [PStr "bold.nii.gz"]) (PInt 0) (PStr "FIRST") = Ok 0%Z
  /\ pickvol (sample_env true [] (one_image "bold.nii.gz" 7))
             (PList [PStr "bold.nii.gz"]) (PInt 0) (PStr "Middle") = Ok 4%Z
  /\ pickvol (sample_env false [] (one_image "bold.nii.gz" 7))
             (PList [PStr "bold.nii.gz"]) (PInt (-1)) (PStr "middle") = Ok 3%Z
  /\ exists w, PStr "first" = PStr w /\ (lower w = "first" \/ lower w = "middle").
Proof.
  destruct pickvol_policies as [Hfirst [Hmiddle Honly]].
  split; [apply Hfirst; reflexivity |].
  split.
  { apply (Hmiddle (sample_env true [] (one_image "bold.nii.gz" 7))
             (PList [PStr "bold.nii.gz"]) (PInt 0) "Middle"
             (PStr "bold.nii.gz")
             (PTuple [PInt 64; PInt 64; PInt 30; PInt 7]) 7%Z);
      try reflexivity.
    vm_compute. discriminate. }
  split.
  { apply (Hmiddle (sample_env false [] (one_image "bold.nii.gz" 7))
             (PList [PStr "bold.nii.gz"]) (PInt (-1)) "middle"
             (PStr "bold.nii.gz")
             (PTuple [PInt 64; PInt 64; PInt 30; PInt 7]) 7%Z);
      try reflexivity.
    vm_compute. discriminate. }
  apply (Honly (sample_env true [] no_image) PNone PNone (PStr "first") 0%Z).
  reflexivity.
Defined.

(** C6, as stated, fails for [pickvol]: under the 'middle' policy it
    loads the image [filenames[fileidx]], so two invocations with equal
    arguments return different results when the file differs. *)
Lemma pickvol_reads_the_image :
  pickvol (sample_env false [] (one_image "bold.nii.gz" 10))
          (PList [PStr "bold.nii.gz"]) (PInt 0) (PStr "middle") = Ok 5%Z
  /\ pickvol (sample_env false [] (one_image "bold.nii.gz" 4))
             (PList [PStr "bold.nii.gz"]) (PInt 0) (PStr "middle") = Ok 2%Z
  /\ pickvol (sample_env false [] no_image)
             (PList [PStr "bold.nii.gz"]) (PInt 0) (PStr "middle")
     = Raise (LibraryError "cannot load image").
Proof. repeat split. Qed.

Lemma pickfirst_io_spec (env : Env) (files : pyval) :
  pickfirst_io files env = (pickfirst files, []).
Proof.
  unfold pickfirst_io, pickfirst.
  destruct (isinstance_list files); reflexivity.
Qed.

(** The computation with accesses returns what [pickvol] returns. *)
Lemma pickvol_io_result (env : Env) (filenames fileidx which : pyval) :
  fst (pickvol_io filenames fileidx which env)
  = pickvol env filenames fileidx which.
Proof.
  unfold pickvol_io, pickvol.
  destruct which as [| z | w | items | items]; try reflexivity.
  destruct (String.eqb (lower w) "first"); [reflexivity |].
  destruct (String.eqb (lower w) "middle"); [| reflexivity].
  unfold io_bind, io_pure, io_load_shape.
  destruct (getitem filenames fileidx) as [f | e]; [| reflexivity].
  simpl. destruct (load_shape env f) as [shape | e]; [| reflexivity].
  simpl. destruct (getitem shape (PInt 3)) as [n | e]; [| reflexivity].
  destruct n; reflexivity.
Qed.

(** What [pickvol] touches: nothing, or the one image it loads. *)
Lemma pickvol_io_accesses (env : Env) (filenames fileidx which : pyval) :
  snd (pickvol_io filenames fileidx which env) = [] \/
  exists w f,
    which = PStr w /\ lower w = "middle" /\
    getitem filenames fileidx = Ok f /\
    snd (pickvol_io filenames fileidx which env) = [ImageLoad f].
Proof.
  unfold pickvol_io.
  destruct which as [| z | w | items | items]; try (left; reflexivity).
  destruct (String.eqb (lower w) "first"); [left; reflexivity |].
  destruct (String.eqb_spec (lower w) "middle") as [Hw |]; [| left; reflexivity].
  unfold io_bind, io_pure, io_load_shape.
  destruct (getitem filenames fileidx) as [f | e] eqn:Hf; [| left; reflexivity].
  right. exists w, f. repeat split; try assumption.
  simpl. destruct (load_shape env f) as [shape | e]; [| reflexivity].
  simpl. destruct (getitem shape (PInt 3)) as [n | e]; [| reflexivity].
  destruct n; reflexivity.
Qed.

(** C6, amended. [pickfirst] touches nothing outside: it makes no
    access and returns the same result in every environment.
    [pickvol] writes nothing; the only external state it reads is the
    image file [filenames[fileidx]], which it loads under the 'middle'
    policy and under no other. Two invocations with equal arguments,
    under the same division, return equal results whenever the image
    they load loads alike; when the lowercase form of [which] is not
    'middle' nothing is accessed and the result is a function of the
    arguments alone. *)
Theorem selectors_determinism :
  (forall env env' files,
      snd (pickfirst_io files env) = [] /\
      fst (pickfirst_io files env) = pickfirst files /\
      pickfirst_io files env = pickfirst_io files env') /\
  (forall env filenames fileidx which,
      fst (pickvol_io filenames fileidx which env)
        = pickvol env filenames fileidx which /\
      forall a, In a (snd (pickvol_io filenames fileidx which env)) ->
                exists w f, which = PStr w /\ lower w = "middle" /\
                            getitem filenames fileidx = Ok f /\
                            a = ImageLoad f) /\
  (forall env env' filenames fileidx which,
      true_division env = true_division env' ->
      (forall f, In (ImageLoad f) (snd (pickvol_io filenames fileidx which env)) ->
                 load_shape env f = load_shape env' f) ->
      pickvol_io filenames fileidx which env
        = pickvol_io filenames fileidx which env') /\
  (forall env env' filenames fileidx which,
      lower which <> "middle" ->
      snd (pickvol_io filenames fileidx (PStr which) env) = [] /\
      pickvol_io filenames fileidx (PStr which) env
        = pickvol_io filenames fileidx (PStr which) env').
Proof.
  split; [| split; [| split]].
  - intros env env' files. rewrite !pickfirst_io_spec. auto.
  - intros env filenames fileidx which. split; [apply pickvol_io_result |].
    intros a Ha.
    destruct (pickvol_io_accesses env filenames fileidx which)
      as [Hnone | [w [f [Hw [Hm [Hf Hone]]]]]].
    + rewrite Hnone in Ha. destruct Ha.
    + rewrite Hone in Ha. destruct Ha as [<- | []].
      exists w, f. auto.
  - intros env env' filenames fileidx which Hdiv Hload.
    revert Hload. unfold pickvol_io.
    destruct which as [| z | w | items | items]; try reflexivity.
    destruct (String.eqb (lower w) "first"); [reflexivity |].
    destruct (String.eqb (lower w) "middle"); [| reflexivity].
    unfold io_bind, io_pure, io_load_shape, io_half_ceil.
    destruct (getitem filenames fileidx) as [f | e]; [| reflexivity].
    simpl. intros Hload.
    assert (load_shape env f = load_shape env' f) as <-.
    { apply Hload.
      destruct (load_shape env f) as [shape | e]; [| left; reflexivity].
      simpl. destruct (getitem shape (PInt 3)) as [n | e]; [| left; reflexivity].
      destruct n; left; reflexivity. }
    destruct (load_shape env f) as [shape | e]; [| reflexivity].
    simpl. destruct (getitem shape (PInt 3)) as [n | e]; [| reflexivity].
    destruct n; try reflexivity. rewrite Hdiv. reflexivity.
  - intros env env' filenames fileidx which Hw.
    unfold pickvol_io. apply String.eqb_neq in Hw. rewrite Hw.
    destruct (String.eqb (lower which) "first"); split; reflexivity.
Qed.

Lemma selectors_determinism_witness :
  (exists w f, PStr "Middle" = PStr w /\ lower w = "middle" /\
               getitem (PList [PStr "bold.nii.gz"]) (PInt 0) = Ok f /\
               ImageLoad (PStr "bold.nii.gz") = ImageLoad f)
  /\ pickvol_io (PList [PStr "bold.nii.gz"]) (PInt 0) (PStr "middle")
                (sample_env false [] (one_image "bold.nii.gz" 10))
     = pickvol_io (PList [PStr "bold.nii.gz"]) (PInt 0) (PStr "middle")
                  (sample_env false ["/home/brain/bart/data/sub001"]
                              (one_image "bold.nii.gz" 10))
  /\ pickvol_io (PList [PStr "bold.nii.gz"]) (PInt 0) (PStr "first")
                (sample_env false [] (one_image "bold.nii.gz" 10))
     = pickvol_io (PList [PStr "bold.nii.gz"]) (PInt 0) (PStr "first")
                  (sample_env true [] no_image).
Proof.
  destruct selectors_determinism as [_ [Hacc [Hload Hpure]]].
  split; [| split].
  - apply (proj2 (Hacc (sample_env false [] (one_image "bold.nii.gz" 10))
                       (PList [PStr "bold.nii.gz"]) (PInt 0) (PStr "Middle"))).
    simpl. left. reflexivity.
  - apply Hload; [reflexivity |]. intros f _. reflexivity.
  - apply (proj2 (Hpure (sample_env false [] (one_image "bold.nii.gz" 10))
                        (sample_env true [] no_image)
                        (PList [PStr "bold.nii.gz"]) (PInt 0) "first"
                        ltac:(vm_compute; discriminate))).
Defined.

End VolumeSelection.

(** ** The subject axis *)

Section Subjects.

Lemma subject_pattern : os_path_join datadir "sub*" = "/home/brain/bart/data/sub*".
Proof. reflexivity. Qed.

Lemma firstn_1_length {A : Type} (l : list A) : (List.length (firstn 1 l) <= 1)%nat.
Proof. destruct l; simpl; lia. Qed.

(** C7, as stated, fails: with three directories matching 'sub*' the
    axis holds one value, not three. *)
Lemma subjects_keeps_one :
  subjects (sample_env false
              [ "/home/brain/bart/data/sub002";
                "/home/brain/bart/data/sub001";
                "/home/brain/bart/data/sub010" ] no_image)
    = ["sub001"]
  /\ infosource_iterables
       (sample_env false
              [ "/home/brain/bart/data/sub002";
                "/home/brain/bart/data/sub001";
                "/home/brain/bart/data/sub010" ] no_image)
     <> [("subject_id", ["sub001"; "sub002"; "sub010"])].
Proof.
  split; [reflexivity |]. vm_compute. discriminate.
Qed.

(** C7, amended. The subject_id axis attached to the infosource node
    holds at most one value: none when nothing matches 'sub*' under the
    data directory, and otherwise the last path component of the least
    matching path in sorted order, so the graph iterates once, for the
    first discovered subject only. *)
Theorem subjects_first_only :
  forall env,
    let found := glob env "/home/brain/bart/data/sub*" in
    infosource_iterables env = [("subject_id", subjects env)] /\
    (List.length (subjects env) <= 1)%nat /\
    (found = [] -> subjects env = []) /\
    (found <> [] ->
     exists p, In p found /\
               (forall q, In q found -> String.leb p q = true) /\
               subjects env = [path_tail p]) /\
    (forall name, free_of os_path_sep name = true ->
                  path_tail (datadir ++ "/" ++ name) = name).
Proof.
  intros env found.
  split; [reflexivity |].
  split; [apply firstn_1_length |].
  assert (subjdirs env = sorted found) as Hdirs
      by (unfold subjdirs; rewrite subject_pattern; reflexivity).
  split; [| split].
  - intros H. unfold subjects, subjects_all. rewrite Hdirs, H. reflexivity.
  - intros H. unfold subjects, subjects_all. rewrite Hdirs.
    destruct (sorted found) as [| m rest] eqn:E.
    + apply (proj1 (sorted_nil_iff _)) in E. exfalso; exact (H E).
    + destruct (sorted_head_least _ _ _ E) as [Hin Hleast].
      exists m. repeat split; assumption.
  - intros name. apply path_tail_join.
Qed.

Lemma subjects_first_only_witness :
  exists p,
    In p [ "/home/brain/bart/data/sub002"; "/home/brain/bart/data/sub001" ] /\
    (forall q, In q [ "/home/brain/bart/data/sub002";
                      "/home/brain/bart/data/sub001" ] ->
               String.leb p q = true) /\
    subjects (sample_env false
                [ "/home/brain/bart/data/sub002";
                  "/home/brain/bart/data/sub001" ] no_image)
      = [path_tail p].
Proof.
  pose proof (subjects_first_only
                (sample_env false
                   [ "/home/brain/bart/data/sub002";
                     "/home/brain/bart/data/sub001" ] no_image)) as H.
  destruct H as [_ [_ [_ [H _]]]].
  apply H. discriminate.
Defined.

End Subjects.

(** ** The graph *)

Section Ranking.

Variable es : list edge.
Variable rank : node -> nat.
Hypothesis upwards : forall e, In e es -> (rank (src e) < rank (dst e))%nat.

(** A ranking that every edge climbs is climbed by every path. *)
Lemma path_rank (a b : node) : path es a b -> (rank a < rank b)%nat.
Proof.
  induction 1 as [e He | e b He _ IH].
  - apply upwards, He.
  - pose proof (upwards e He). lia.
Qed.

Lemma ranked_acyclic (n : node) : ~ path es n n.
Proof.
  intros H. apply path_rank in H. lia.
Qed.

End Ranking.

Section Graph.

Lemma respects_spec (rank : node -> nat) (es : list edge) :
  respects rank es = true ->
  forall e, In e es -> (rank (src e) < rank (dst e))%nat.
Proof.
  unfold respects. rewrite forallb_forall.
  intros H e He. apply Nat.ltb_lt, H, He.
Qed.

Lemma connect_calls_upwards :
  forall e, In e connect_calls -> (position (src e) < position (dst e))%nat.
Proof. apply respects_spec. reflexivity. Qed.

Lemma every_node_created (n : node) : In n creation_order.
Proof. destruct n; simpl; tauto. Qed.

Lemma creation_order_nodup : NoDup creation_order.
Proof.
  unfold creation_order.
  repeat (constructor; [simpl; intuition discriminate |]).
  constructor.
Qed.

Lemma toposort_connect_calls :
  Engine.toposort (List.length (Engine.nodes_of connect_calls)) connect_calls
                  (Engine.nodes_of connect_calls) []
  = ([ infosource; datasource; img2float; skull_strip; extract_ref;
       motion_correct; coregister; normalize_affine; normalize_warp;
       apply_warp; smooth; datasink ], []).
Proof. reflexivity. Qed.

(** C1. The graph the script constructs is acyclic: its eighteen
    connect calls all go forward in the order in which the nodes are
    created (a topological order), no path leads from a node back to
    itself, and freezing the graph does not fail with
    CycleDetectedError. *)
Theorem preproc_acyclic :
  List.length connect_calls = 18%nat /\
  NoDup creation_order /\
  (forall n, In n creation_order) /\
  (forall e, In e connect_calls ->
             (position (src e) < position (dst e))%nat) /\
  (forall n, ~ path connect_calls n n) /\
  (forall required names,
      Engine.freeze required connect_calls
        <> Engine.Failed (Engine.CycleDetectedError names)) /\
  Engine.freeze (fun _ => []) connect_calls
    = Engine.Built
        [ infosource; datasource; img2float; skull_strip; extract_ref;
          motion_correct; coregister; normalize_affine; normalize_warp;
          apply_warp; smooth; datasink ].
Proof.
  split; [reflexivity |].
  split; [exact creation_order_nodup |].
  split; [exact every_node_created |].
  split; [exact connect_calls_upwards |].
  split; [exact (ranked_acyclic _ _ connect_calls_upwards) |].
  split; [| reflexivity].
  intros required names. unfold Engine.freeze.
  rewrite toposort_connect_calls.
  destruct (Engine.first_unbound required connect_calls
              (Engine.nodes_of connect_calls)) as [[n p] |]; discriminate.
Qed.

Lemma preproc_acyclic_witness :
  (position (src (conn smooth "out_file" datasink "smooth_func"))
   < position (dst (conn smooth "out_file" datasink "smooth_func")))%nat.
Proof.
  apply (proj1 (proj2 (proj2 (proj2 preproc_acyclic)))).
  simpl. tauto.
Defined.

End Graph.

(** ** Destinations *)

Section Destinations.

Lemma node_eqb_eq (a b : node) : node_eqb a b = true <-> a = b.
Proof.
  unfold node_eqb. destruct (node_eq_dec a b); split; congruence.
Qed.

Lemma same_dest_eq (e1 e2 : edge) : same_dest e1 e2 = true <-> dest e1 = dest e2.
Proof.
  unfold same_dest, dest.
  rewrite andb_true_iff, node_eqb_eq, String.eqb_eq.
  split; [intros [-> ->]; reflexivity | intros H; injection H; auto].
Qed.

Lemma fresh_dest (e : edge) (g : list edge) :
  ~ In (dest e) (map dest g) -> existsb (same_dest e) g = false.
Proof.
  intros H. destruct (existsb (same_dest e) g) eqn:E; [| reflexivity].
  exfalso. apply H. apply existsb_exists in E as [x [Hx Hsame]].
  apply same_dest_eq in Hsame. rewrite Hsame. apply in_map, Hx.
Qed.

(** Calls with pairwise distinct destinations never meet an occupied
    destination port, whatever ports the interfaces declare. *)
Lemma connect_all_no_duplicate (ports : Engine.port_table) :
  forall calls g,
    NoDup (map dest (g ++ calls)%list) ->
    forall n p,
      Engine.connect_all ports g calls
        <> Engine.Failed (Engine.DuplicateInputError n p).
Proof.
  induction calls as [| e rest IH]; intros g Hnd n p; simpl.
  - discriminate.
  - unfold Engine.connect.
    rewrite fresh_dest.
    + destruct (negb (Engine.declares_out ports (src e) (src_port e)));
        [discriminate |].
      destruct (negb (Engine.declares_in ports (dst e) (dst_port e)));
        [discriminate |].
      apply IH. rewrite <- app_assoc. exact Hnd.
    + rewrite map_app in Hnd. simpl in Hnd.
      apply NoDup_remove_2 in Hnd.
      intros Hin. apply Hnd, in_or_app. left. exact Hin.
Qed.

Lemma nodup_map_injective {A B : Type} (f : A -> B) (l : list A) :
  NoDup (map f l) ->
  forall x y, In x l -> In y l -> f x = f y -> x = y.
Proof.
  induction l as [| a l IH]; simpl; intros Hnd x y Hx Hy Hf; [destruct Hx |].
  inversion Hnd as [| ? ? Hnotin Hnd']; subst.
  destruct Hx as [<- | Hx], Hy as [<- | Hy].
  - reflexivity.
  - exfalso. apply Hnotin. rewrite Hf. apply in_map, Hy.
  - exfalso. apply Hnotin. rewrite <- Hf. apply in_map, Hx.
  - apply IH; assumption.
Qed.

Lemma connect_calls_dests_nodup : NoDup (map dest connect_calls).
Proof.
  simpl.
  repeat (constructor; [simpl; intuition discriminate |]).
  constructor.
Qed.

(** C2. No two of the script's connect calls name the same destination
    node and destination port: each connected input port has exactly
    one producing edge, and no connect call fails with
    DuplicateInputError. *)
Theorem connect_calls_distinct_destinations :
  NoDup (map dest connect_calls) /\
  (forall e1 e2, In e1 connect_calls -> In e2 connect_calls ->
                 dst e1 = dst e2 -> dst_port e1 = dst_port e2 -> e1 = e2) /\
  (forall e, In e connect_calls ->
             List.length (filter (same_dest e) connect_calls) = 1%nat) /\
  (forall ports n p,
      Engine.connect_all ports [] connect_calls
        <> Engine.Failed (Engine.DuplicateInputError n p)) /\
  Engine.connect_all permissive [] connect_calls = Engine.Built connect_calls.
Proof.
  split; [exact connect_calls_dests_nodup |].
  split.
  { intros e1 e2 H1 H2 Hn Hp.
    apply (nodup_map_injective dest connect_calls connect_calls_dests_nodup);
      try assumption.
    unfold dest. rewrite Hn, Hp. reflexivity. }
  split.
  { assert (forallb (fun e => Nat.eqb (List.length (filter (same_dest e) connect_calls)) 1)
                    connect_calls = true) as H by reflexivity.
    rewrite forallb_forall in H.
    intros e He. apply Nat.eqb_eq, H, He. }
  split; [| reflexivity].
  intros ports n p. apply connect_all_no_duplicate.
  exact connect_calls_dests_nodup.
Qed.

Lemma connect_calls_distinct_destinations_witness :
  List.length
    (filter (same_dest (conn skull_strip "out_file" coregister "in_file"))
            connect_calls) = 1%nat.
Proof.
  apply (proj1 (proj2 (proj2 connect_calls_distinct_destinations))).
  simpl. tauto.
Defined.

End Destinations.

(** ** The command line *)

Section CommandLine.

(** Without a first argument, or with one that is neither 'plot' nor
    'run', the main block does nothing. *)
Lemma main_idle (raises : oracle) (argv : list string) :
  nth_error argv 1 = None \/
  (exists arg, nth_error argv 1 = Some arg /\ arg <> "plot" /\ arg <> "run") ->
  main raises argv = idle.
Proof.
  intros [H | [arg [H [Hplot Hrun]]]]; unfold main; rewrite H.
  - destruct (1 <? List.length argv)%nat; reflexivity.
  - apply String.eqb_neq in Hplot. apply String.eqb_neq in Hrun.
    rewrite Hplot, Hrun.
    destruct (1 <? List.length argv)%nat; reflexivity.
Qed.

Lemma main_plot (raises : oracle) (prog : string) (rest : list string) :
  main raises (prog :: "plot" :: rest) = perform raises [] make_schemata.
Proof. reflexivity. Qed.

Lemma main_run (raises : oracle) (prog : string) (rest : list string) :
  main raises (prog :: "run" :: rest) = perform raises [] run_preproc.
Proof. reflexivity. Qed.

(** The process ends with an exception exactly when the last call it
    made raised. *)
Lemma perform_uncaught (raises : oracle) (todo : list call) :
  forall history e,
    uncaught (perform raises history todo) = Some e ->
    exists before c,
      performed (perform raises history todo) = (before ++ [c])%list /\
      raises before c = Some e.
Proof.
  induction todo as [| c rest IH]; intros history e; simpl.
  - discriminate.
  - destruct (raises history c) as [e' |] eqn:E; simpl.
    + intros H. injection H as ->. exists history, c. split; [reflexivity | exact E].
    + apply IH.
Qed.

Lemma perform_completed (raises : oracle) (todo : list call) :
  forall history,
    uncaught (perform raises history todo) = None ->
    performed (perform raises history todo) = (history ++ todo)%list.
Proof.
  induction todo as [| c rest IH]; intros history; simpl.
  - intros _. symmetry. apply app_nil_r.
  - destruct (raises history c) as [e' |] eqn:E; simpl.
    + discriminate.
    + intros H. rewrite (IH _ H), <- app_assoc. reflexivity.
Qed.

Lemma main_uncaught (raises : oracle) (argv : list string) (e : exn) :
  uncaught (main raises argv) = Some e ->
  exists before c,
    performed (main raises argv) = (before ++ [c])%list /\
    raises before c = Some e.
Proof.
  unfold main.
  destruct (1 <? List.length argv)%nat; [| discriminate].
  destruct (nth_error argv 1) as [arg |]; [| discriminate].
  destruct (String.eqb arg "plot"); [apply perform_uncaught |].
  destruct (String.eqb arg "run"); [apply perform_uncaught | discriminate].
Qed.

End CommandLine.

Section ExitStatus.

Lemma perform_no_raise (raises : oracle) (todo : list call) :
  forall history,
    uncaught (perform raises history todo) = None ->
    forall before c after,
      todo = (before ++ c :: after)%list ->
      raises (history ++ before)%list c = None.
Proof.
  induction todo as [| d rest IH]; intros history Hdone before c after Heq.
  - destruct before; discriminate.
  - simpl in Hdone.
    destruct (raises history d) as [e |] eqn:E; [discriminate |].
    destruct before as [| b before'].
    + injection Heq as <- _. rewrite app_nil_r. exact E.
    + injection Heq as <- Hrest.
      rewrite (app_assoc history [d] before' : (history ++ d :: before' = _)%list).
      exact (IH _ Hdone before' c after Hrest).
Qed.

Lemma main_no_raise (raises : oracle) (argv : list string) :
  uncaught (main raises argv) = None ->
  forall before c,
    performed (main raises argv) = (before ++ [c])%list ->
    raises before c = None.
Proof.
  unfold main.
  assert (forall todo,
             uncaught (perform raises [] todo) = None ->
             forall before c,
               performed (perform raises [] todo) = (before ++ [c])%list ->
               raises before c = None) as Hperform.
  { intros todo Hdone before c Hperf.
    rewrite (perform_completed _ _ _ Hdone) in Hperf. simpl in Hperf.
    exact (perform_no_raise raises todo [] Hdone before c [] Hperf). }
  assert (forall before c, @nil call <> (before ++ [c])%list) as Hnil
      by (intros [| b before] c; discriminate).
  destruct (1 <? List.length argv)%nat;
    [| intros _ before c H; destruct (Hnil _ _ H)].
  destruct (nth_error argv 1) as [arg |];
    [| intros _ before c H; destruct (Hnil _ _ H)].
  destruct (String.eqb arg "plot"); [apply Hperform |].
  destruct (String.eqb arg "run"); [apply Hperform |].
  intros _ before c H. destruct (Hnil _ _ H).
Qed.

(** C8, as stated, fails: the command line has no 'build' and no
    'plan' operation. With either word the script performs nothing and
    reports nothing, exactly as with an unknown word. *)
Lemma no_build_or_plan_operation :
  main never_raises ["preproc.py"; "build"] = mkProcess [] None
  /\ main never_raises ["preproc.py"; "plan"] = mkProcess [] None
  /\ main never_raises ["preproc.py"; "plan"]
     = main never_raises ["preproc.py"; "no-such-operation"].
Proof. repeat split. Qed.

(** C8, amended. Once the main block is reached, the command line
    provides a 'plot' operation, which first writes the graph schemata
    and then moves the four files written into the dot and the figure
    directory, and a 'run' operation, which runs the workflow and then
    deletes its report directory 'preproc'; 'build' and 'plan' are not
    operations and perform nothing. The exit status is non-zero exactly
    when a call made by the chosen operation raised; in particular,
    when the engine's run raises, the status is 1 and the report
    directory is left alone. *)
Theorem command_surface :
  (forall raises prog rest,
      (exists calls,
          performed (main raises (prog :: "plot" :: rest))
            = WriteGraph "preproc" "orig" :: calls) /\
      (exit_status (main raises (prog :: "plot" :: rest)) = 0%Z ->
       performed (main raises (prog :: "plot" :: rest))
         = [ WriteGraph "preproc" "orig";
             OsRename "preproc.dot"
                      "/home/brain/bart/fmri-repro/dot/preproc.dot";
             OsRename "preproc_detailed.dot"
                      "/home/brain/bart/fmri-repro/dot/preproc_detailed.dot";
             OsRename "preproc.dot.png"
                      "/home/brain/bart/fmri-repro/fig/preproc.dot.png";
             OsRename "preproc_detailed.dot.png"
                      "/home/brain/bart/fmri-repro/fig/preproc_detailed.dot.png" ])) /\
  (forall raises prog rest,
      raises [] WorkflowRun = None ->
      performed (main raises (prog :: "run" :: rest))
        = [WorkflowRun; Rmtree "preproc"]) /\
  (forall raises prog rest,
      main raises (prog :: "build" :: rest) = mkProcess [] None /\
      main raises (prog :: "plan" :: rest) = mkProcess [] None) /\
  (forall raises argv,
      exit_status (main raises argv) <> 0%Z <->
      exists before c e,
        performed (main raises argv) = (before ++ [c])%list /\
        raises before c = Some e) /\
  (forall raises prog rest e,
      raises [] WorkflowRun = Some e ->
      main raises (prog :: "run" :: rest) = mkProcess [WorkflowRun] (Some e) /\
      exit_status (main raises (prog :: "run" :: rest)) = 1%Z).
Proof.
  split; [| split; [| split; [| split]]].
  - intros raises prog rest. rewrite main_plot. split.
    + unfold make_schemata. simpl.
      repeat match goal with
             | |- context [raises ?h ?c] => destruct (raises h c); simpl
             end;
        eexists; reflexivity.
    + unfold exit_status.
      destruct (uncaught (perform raises [] make_schemata)) eqn:E;
        [discriminate |].
      intros _. rewrite (perform_completed _ _ _ E). reflexivity.
  - intros raises prog rest H. rewrite main_run. simpl. rewrite H.
    destruct (raises [WorkflowRun] (Rmtree "preproc")); reflexivity.
  - intros; split; reflexivity.
  - intros raises argv. unfold exit_status. split.
    + destruct (uncaught (main raises argv)) as [e |] eqn:E; [| congruence].
      intros _. destruct (main_uncaught _ _ _ E) as [before [c [Hp Hr]]].
      exists before, c, e. split; assumption.
    + intros [before [c [e [Hp Hr]]]].
      destruct (uncaught (main raises argv)) as [e' |] eqn:E; [discriminate |].
      rewrite (main_no_raise _ _ E _ _ Hp) in Hr. discriminate.
  - intros raises prog rest e He.
    rewrite main_run. simpl. rewrite He. split; reflexivity.
Qed.

Lemma command_surface_witness :
  performed (main never_raises ["preproc.py"; "plot"])
    = [ WriteGraph "preproc" "orig";
        OsRename "preproc.dot"
                 "/home/brain/bart/fmri-repro/dot/preproc.dot";
        OsRename "preproc_detailed.dot"
                 "/home/brain/bart/fmri-repro/dot/preproc_detailed.dot";
        OsRename "preproc.dot.png"
                 "/home/brain/bart/fmri-repro/fig/preproc.dot.png";
        OsRename "preproc_detailed.dot.png"
                 "/home/brain/bart/fmri-repro/fig/preproc_detailed.dot.png" ]
  /\ performed (main never_raises ["preproc.py"; "run"])
     = [WorkflowRun; Rmtree "preproc"]
  /\ (main run_raises ["preproc.py"; "run"]
      = mkProcess [WorkflowRun]
                  (Some (LibraryError "Workflow did not execute cleanly"))
      /\ exit_status (main run_raises ["preproc.py"; "run"]) = 1%Z).
Proof.
  destruct command_surface as [Hplot [Hrun [_ [_ Hfail]]]].
  split; [| split].
  - apply (proj2 (Hplot never_raises "preproc.py" [])). reflexivity.
  - apply Hrun. reflexivity.
  - apply Hfail. reflexivity.
Defined.

Lemma construct_completed (lib : library) (todo : list step) :
  forall completed,
    snd (construct lib completed todo) = None ->
    fst (construct lib completed todo) = (completed ++ todo)%list.
Proof.
  induction todo as [| s rest IH]; intros completed; simpl.
  - intros _. symmetry. apply app_nil_r.
  - destruct (lib completed s) as [e |]; simpl; [discriminate |].
    intros H. rewrite (IH _ H), <- app_assoc. reflexivity.
Qed.

Lemma construct_prefix (lib : library) (todo : list step) :
  forall completed,
    exists done rest,
      fst (construct lib completed todo) = (completed ++ done)%list /\
      todo = (done ++ rest)%list /\
      (snd (construct lib completed todo) <> None -> rest <> []).
Proof.
  induction todo as [| s rest IH]; intros completed; simpl.
  - exists [], []. repeat split; [symmetry; apply app_nil_r | congruence].
  - destruct (lib completed s) as [e |]; simpl.
    + exists [], (s :: rest).
      repeat split; [symmetry; apply app_nil_r | discriminate].
    + destruct (IH (completed ++ [s])%list) as [done [rest' [Hf [Ht Hn]]]].
      exists (s :: done), rest'. repeat split.
      * rewrite Hf, <- app_assoc. reflexivity.
      * rewrite Ht. reflexivity.
      * exact Hn.
Qed.

Lemma edges_of_app (a b : list step) :
  edges_of (a ++ b)%list = (edges_of a ++ edges_of b)%list.
Proof. apply flat_map_app. Qed.

(** The connect statements of the module level are the eighteen
    connect calls, in the same order. *)
Lemma module_level_edges (env : Env) :
  edges_of (module_level env) = connect_calls.
Proof. reflexivity. Qed.

Lemma module_level_iterables (env : Env) :
  iterables_of (module_level env) = [("subject_id", subjects env)].
Proof. reflexivity. Qed.

Lemma every_node_connected (n : node) :
  exists e, In e connect_calls /\ (src e = n \/ dst e = n).
Proof.
  destruct n;
    [ exists (conn infosource "subject_id" datasource "subject_id")
    | exists (conn datasource "bold" img2float "in_file")
    | exists (conn img2float "out_file" extract_ref "in_file")
    | exists (conn img2float "out_file" extract_ref "in_file")
    | exists (conn img2float "out_file" motion_correct "in_file")
    | exists (conn datasource "anat" skull_strip "in_file")
    | exists (conn skull_strip "out_file" coregister "in_file")
    | exists (conn coregister "out_file" normalize_affine "in_file")
    | exists (conn coregister "out_file" normalize_warp "in_file")
    | exists (conn apply_warp "out_file" smooth "in_file")
    | exists (conn apply_warp "out_file" smooth "in_file")
    | exists (conn smooth "out_file" datasink "smooth_func") ];
    (split; [simpl; tauto | simpl; tauto]).
Qed.

(** C10, as stated, fails: the script reaches its main block only if
    the module level completes. When the interface rejects the data
    directory (line 71), the script ends there with an uncaught
    exception and status 1, having connected nothing, although it was
    invoked without arguments. *)
Lemma script_stops_at_module_level :
  exit_status
    (proc (script (sample_env false [] no_image) missing_data_directory
                  never_raises ["preproc.py"])) = 1%Z
  /\ workflow (script (sample_env false [] no_image) missing_data_directory
                      never_raises ["preproc.py"]) = []
  /\ uncaught
       (proc (script (sample_env false [] no_image) missing_data_directory
                     never_raises ["preproc.py"]))
     = Some (LibraryError "TraitError: base_directory must be an existing directory").
Proof. repeat split. Qed.

(** C10, amended. When every statement of the module level completes
    (imports, node construction, input assignments, connect calls), the
    script invoked with no command-line argument, or with a first
    argument other than 'plot' or 'run', has constructed the workflow
    graph (the eighteen connections, touching all twelve nodes, and the
    subject axis), performs no call (no execution, no schemata), raises
    nothing and exits with status 0. When a statement of the module
    level raises, the script ends there with status 1 whatever its
    arguments: the main block is not reached and only the connections
    made before that statement exist. *)
Theorem script_without_operation :
  (forall env lib raises argv,
      snd (construct lib [] (module_level env)) = None ->
      nth_error argv 1 = None \/
      (exists arg, nth_error argv 1 = Some arg /\ arg <> "plot" /\ arg <> "run") ->
      constructed (script env lib raises argv) = module_level env /\
      workflow (script env lib raises argv) = connect_calls /\
      List.length (workflow (script env lib raises argv)) = 18%nat /\
      (forall n, exists e, In e (workflow (script env lib raises argv)) /\
                           (src e = n \/ dst e = n)) /\
      iterables (script env lib raises argv) = [("subject_id", subjects env)] /\
      performed (proc (script env lib raises argv)) = [] /\
      uncaught (proc (script env lib raises argv)) = None /\
      exit_status (proc (script env lib raises argv)) = 0%Z) /\
  (forall env lib raises argv s e,
      snd (construct lib [] (module_level env)) = Some (s, e) ->
      uncaught (proc (script env lib raises argv)) = Some e /\
      exit_status (proc (script env lib raises argv)) = 1%Z /\
      performed (proc (script env lib raises argv)) = [] /\
      exists later,
        connect_calls = (workflow (script env lib raises argv) ++ later)%list).
Proof.
  split.
  - intros env lib raises argv Hdone Hargv.
    pose proof (construct_completed lib (module_level env) [] Hdone) as Hall.
    unfold script.
    destruct (construct lib [] (module_level env)) as [completed failure].
    simpl in Hdone, Hall. subst failure completed.
    cbn [constructed workflow iterables proc app].
    rewrite module_level_edges, module_level_iterables,
      (main_idle raises argv Hargv).
    repeat split. apply every_node_connected.
  - intros env lib raises argv s e Hfail.
    destruct (construct_prefix lib (module_level env) [])
      as [done [rest [Hf [Ht _]]]].
    unfold script.
    destruct (construct lib [] (module_level env)) as [completed failure].
    simpl in Hfail, Hf. subst failure completed.
    cbn [constructed workflow iterables proc].
    repeat split.
    exists (edges_of rest).
    rewrite <- (module_level_edges env), Ht. apply edges_of_app.
Qed.

Lemma script_without_operation_witness :
  (performed (proc (script (sample_env false [] no_image) library_ok run_raises
                           ["preproc.py"])) = []
   /\ exit_status (proc (script (sample_env false [] no_image) library_ok
                                run_raises ["preproc.py"])) = 0%Z)
  /\ (List.length (workflow (script (sample_env false [] no_image) library_ok
                                    run_raises ["preproc.py"; "Run"])) = 18%nat
      /\ exit_status (proc (script (sample_env false [] no_image) library_ok
                                   run_raises ["preproc.py"; "Run"])) = 0%Z)
  /\ exit_status (proc (script (sample_env false [] no_image)
                               missing_data_directory run_raises
                               ["preproc.py"; "run"])) = 1%Z.
Proof.
  destruct script_without_operation as [Hidle Hfail].
  split; [| split].
  - assert (nth_error ["preproc.py"] 1 = None \/
            (exists arg, nth_error ["preproc.py"] 1 = Some arg /\
                         arg <> "plot" /\ arg <> "run")) as H
        by (left; reflexivity).
    destruct (Hidle (sample_env false [] no_image) library_ok run_raises
                ["preproc.py"] eq_refl H) as [_ [_ [_ [_ [_ [Hp [_ Hs]]]]]]].
    split; assumption.
  - assert (nth_error ["preproc.py"; "Run"] 1 = None \/
            (exists arg, nth_error ["preproc.py"; "Run"] 1 = Some arg /\
                         arg <> "plot" /\ arg <> "run")) as H.
    { right. exists "Run". repeat split; discriminate. }
    destruct (Hidle (sample_env false [] no_image) library_ok run_raises
                ["preproc.py"; "Run"] eq_refl H) as [_ [_ [Hl [_ [_ [_ [_ Hs]]]]]]].
    split; assumption.
  - apply (Hfail (sample_env false [] no_image) missing_data_directory
             run_raises ["preproc.py"; "run"]
             (SetInput datasource "base_directory")
             (LibraryError "TraitError: base_directory must be an existing directory")
             eq_refl).
Defined.

End ExitStatus.

(** * Further properties of the script *)

(** ** pickfirst and pickvol: failures and bounds *)

Section SelectorEdges.

(** X1. [pickfirst] fails on the empty list and on nothing else, and
    then with [IndexError]. *)
Theorem pickfirst_fails_only_on_empty :
  forall v e, pickfirst v = Raise e <-> v = PList [] /\ e = IndexError.
Proof.
  intros v e. split.
  - destruct v as [| z | s | [| x xs] | items]; try discriminate.
    intros H. vm_compute in H. injection H as <-. split; reflexivity.
  - intros [-> ->]. reflexivity.
Qed.

(** X2. Under the 'middle' policy, for an image with [k] time points:
    the index returned lies strictly inside [0, k) as soon as [k >= 2];
    for a single time point it is 0 under floor division and 1, one past
    the last volume, under true division. *)
Theorem pickvol_middle_range :
  forall env filenames fileidx which f shape k,
    lower which = "middle" ->
    getitem filenames fileidx = Ok f ->
    load_shape env f = Ok shape ->
    getitem shape (PInt 3) = Ok (PInt k) ->
    (1 <= k)%Z ->
    exists idx,
      pickvol env filenames fileidx (PStr which) = Ok idx /\
      (0 <= idx <= k)%Z /\
      (2 <= k -> 0 < idx < k)%Z /\
      (k = 1 -> idx = if true_division env then 1 else 0)%Z.
Proof.
  intros env filenames fileidx which f shape k Hw Hf Hs Hn Hk.
  exists (half_ceil (true_division env) k). split.
  - rewrite (pickvol_middle _ _ _ _ Hw), Hf. simpl.
    rewrite Hs. simpl. rewrite Hn. reflexivity.
  - apply half_ceil_bounds, Hk.
Qed.

Lemma pickvol_middle_range_witness :
  exists idx,
    pickvol (sample_env true [] (one_image "bold.nii.gz" 1))
            (PList [PStr "bold.nii.gz"]) (PInt 0) (PStr "middle") = Ok idx /\
    (0 <= idx <= 1)%Z /\
    (2 <= 1 -> 0 < idx < 1)%Z /\
    (1 = 1 -> idx = 1)%Z.
Proof.
  apply (pickvol_middle_range
           (sample_env true [] (one_image "bold.nii.gz" 1))
           (PList [PStr "bold.nii.gz"]) (PInt 0) "middle"
           (PStr "bold.nii.gz")
           (PTuple [PInt 64; PInt 64; PInt 30; PInt 1]) 1%Z);
    try reflexivity; lia.
Defined.

Lemma seq_getitem_short {A : Type} (items : list A) (i : Z) :
  (Z.of_nat (List.length items) <= i)%Z ->
  seq_getitem items i = Raise IndexError.
Proof.
  intros H. unfold seq_getitem.
  destruct (i <? 0)%Z eqn:E; [apply Z.ltb_lt in E; lia |].
  replace (Z.of_nat (List.length items) <=? i)%Z with true
    by (symmetry; apply Z.leb_le, H).
  rewrite orb_true_r. reflexivity.
Qed.

(** X3. Under the 'middle' policy every failure on the way to the
    fourth dimension surfaces unchanged: the failure of
    [filenames[fileidx]], the failure of the load, and, for an image of
    fewer than four dimensions, [IndexError]. *)
Theorem pickvol_middle_failures :
  forall env filenames fileidx which,
    lower which = "middle" ->
    (forall e, getitem filenames fileidx = Raise e ->
               pickvol env filenames fileidx (PStr which) = Raise e) /\
    (forall f e, getitem filenames fileidx = Ok f ->
                 load_shape env f = Raise e ->
                 pickvol env filenames fileidx (PStr which) = Raise e) /\
    (forall f dims, getitem filenames fileidx = Ok f ->
                    load_shape env f = Ok (PTuple dims) ->
                    (List.length dims < 4)%nat ->
                    pickvol env filenames fileidx (PStr which) = Raise IndexError).
Proof.
  intros env filenames fileidx which Hw.
  rewrite (pickvol_middle _ _ _ _ Hw). repeat split.
  - intros e He. rewrite He. reflexivity.
  - intros f e Hf He. rewrite Hf. simpl. rewrite He. reflexivity.
  - intros f dims Hf Hs Hlen. rewrite Hf. simpl. rewrite Hs. simpl.
    rewrite seq_getitem_short by lia. reflexivity.
Qed.

Lemma pickvol_middle_failures_witness :
  pickvol (sample_env false [] no_image) (PList []) (PInt 0) (PStr "middle")
    = Raise IndexError
  /\ pickvol (sample_env false [] no_image) (PList [PStr "bold.nii.gz"])
             (PInt 0) (PStr "middle")
     = Raise (LibraryError "cannot load image")
  /\ pickvol (mkEnv (fun _ => []) (fun _ => Ok (PTuple [PInt 64; PInt 64; PInt 30]))
                    false)
             (PList [PStr "anat.nii.gz"]) (PInt 0) (PStr "middle")
     = Raise IndexError.
Proof.
  split; [| split].
  - apply (proj1 (pickvol_middle_failures (sample_env false [] no_image)
                    (PList []) (PInt 0) "middle" eq_refl)).
    reflexivity.
  - apply (proj1 (proj2 (pickvol_middle_failures (sample_env false [] no_image)
                    (PList [PStr "bold.nii.gz"]) (PInt 0) "middle" eq_refl))
             (PStr "bold.nii.gz")); reflexivity.
  - apply (proj2 (proj2 (pickvol_middle_failures
                    (mkEnv (fun _ => [])
                           (fun _ => Ok (PTuple [PInt 64; PInt 64; PInt 30])) false)
                    (PList [PStr "anat.nii.gz"]) (PInt 0) "middle" eq_refl))
             (PStr "anat.nii.gz") [PInt 64; PInt 64; PInt 30]);
      try reflexivity.
    simpl. lia.
Defined.

End SelectorEdges.

Section FileIndex.

Lemma seq_getitem_below {A : Type} (items : list A) (i : Z) :
  (i < - Z.of_nat (List.length items))%Z ->
  seq_getitem items i = Raise IndexError.
Proof.
  intros H. unfold seq_getitem.
  replace (i <? 0)%Z with true by (symmetry; apply Z.ltb_lt; lia).
  replace (i + Z.of_nat (List.length items) <? 0)%Z with true
    by (symmetry; apply Z.ltb_lt; lia).
  reflexivity.
Qed.

Lemma seq_getitem_from_end {A : Type} (items : list A) (i : Z) :
  (- Z.of_nat (List.length items) <= i < 0)%Z ->
  seq_getitem items i = seq_getitem items (i + Z.of_nat (List.length items)).
Proof.
  intros H. unfold seq_getitem. cbv zeta.
  assert ((i <? 0)%Z = true) as E1 by (apply Z.ltb_lt; lia).
  assert ((i + Z.of_nat (List.length items) <? 0)%Z = false) as E2
      by (apply Z.ltb_ge; lia).
  rewrite E1, !E2. reflexivity.
Qed.

(** X4. With a list of [n] file names, [pickvol] under 'middle' takes
    a negative [fileidx] from the end of the list, and raises
    [IndexError], loading nothing, when [fileidx] is outside
    [-n, n). *)
Theorem pickvol_file_index :
  forall env files fileidx which,
    lower which = "middle" ->
    let n := Z.of_nat (List.length files) in
    ((fileidx < - n \/ n <= fileidx)%Z ->
     pickvol env (PList files) (PInt fileidx) (PStr which) = Raise IndexError) /\
    ((- n <= fileidx < 0)%Z ->
     pickvol env (PList files) (PInt fileidx) (PStr which)
       = pickvol env (PList files) (PInt (fileidx + n)) (PStr which)).
Proof.
  intros env files fileidx which Hw n. split.
  - intros H. rewrite (pickvol_middle _ _ _ _ Hw). simpl getitem.
    destruct H as [H | H];
      [rewrite seq_getitem_below by exact H
      | rewrite seq_getitem_short by exact H]; reflexivity.
  - intros H. rewrite !(pickvol_middle _ _ _ _ Hw). simpl getitem.
    rewrite (seq_getitem_from_end files fileidx H). reflexivity.
Qed.

Lemma pickvol_file_index_witness :
  pickvol (sample_env false [] (one_image "run2.nii.gz" 9))
          (PList [PStr "run1.nii.gz"; PStr "run2.nii.gz"]) (PInt 2) (PStr "middle")
    = Raise IndexError
  /\ pickvol (sample_env false [] (one_image "run2.nii.gz" 9))
             (PList [PStr "run1.nii.gz"; PStr "run2.nii.gz"]) (PInt (-1))
             (PStr "middle")
     = pickvol (sample_env false [] (one_image "run2.nii.gz" 9))
               (PList [PStr "run1.nii.gz"; PStr "run2.nii.gz"]) (PInt (-1 + 2))
               (PStr "middle").
Proof.
  pose proof (pickvol_file_index
                (sample_env false [] (one_image "run2.nii.gz" 9))
                [PStr "run1.nii.gz"; PStr "run2.nii.gz"]) as H.
  split.
  - apply (proj1 (H 2%Z "middle" eq_refl)). simpl. lia.
  - apply (proj2 (H (-1)%Z "middle" eq_refl)). simpl. lia.
Defined.

Lemma lower_ascii_idempotent (c : ascii) :
  lower_ascii (lower_ascii c) = lower_ascii c.
Proof.
  destruct c as [[] [] [] [] [] [] [] []]; reflexivity.
Qed.

Lemma lower_idempotent (s : string) : lower (lower s) = lower s.
Proof.
  induction s as [| c s IH]; simpl; [reflexivity |].
  rewrite lower_ascii_idempotent, IH. reflexivity.
Qed.

(** X5. The policy keyword is read without regard to case: two
    spellings with the same lowercase form yield the same index, and a
    keyword that yields an index yields the same one once lowercased. *)
Theorem pickvol_case_insensitive :
  forall env filenames fileidx which idx,
    pickvol env filenames fileidx (PStr which) = Ok idx ->
    pickvol env filenames fileidx (PStr (lower which)) = Ok idx /\
    (forall which', lower which' = lower which ->
                    pickvol env filenames fileidx (PStr which') = Ok idx).
Proof.
  intros env filenames fileidx which idx H.
  assert (forall w, lower w = lower which ->
                    pickvol env filenames fileidx (PStr w) = Ok idx) as Hall.
  { intros w Hw.
    destruct (pickvol_ok_inv _ _ _ _ _ H) as [w0 [Heq [E | E]]];
      injection Heq as <-.
    - rewrite (pickvol_first _ _ _ _ E) in H.
      rewrite pickvol_first by congruence. exact H.
    - rewrite (pickvol_middle _ _ _ _ E) in H.
      rewrite pickvol_middle by congruence. exact H. }
  split; [apply Hall, lower_idempotent | exact Hall].
Qed.

Lemma pickvol_case_insensitive_witness :
  pickvol (sample_env false [] (one_image "bold.nii.gz" 10))
          (PList [PStr "bold.nii.gz"]) (PInt 0) (PStr "middle") = Ok 5%Z
  /\ pickvol (sample_env false [] (one_image "bold.nii.gz" 10))
             (PList [PStr "bold.nii.gz"]) (PInt 0) (PStr "MIDDLE") = Ok 5%Z.
Proof.
  destruct (pickvol_case_insensitive
              (sample_env false [] (one_image "bold.nii.gz" 10))
              (PList [PStr "bold.nii.gz"]) (PInt 0) "Middle" 5%Z eq_refl)
    as [H1 H2].
  split; [exact H1 | apply H2; reflexivity].
Defined.

End FileIndex.

(** ** Subject names *)

Section SubjectNames.

Lemma string_app_assoc (a b c : string) : ((a ++ b) ++ c = a ++ (b ++ c))%string.
Proof.
  induction a as [| x a IH]; simpl; [reflexivity | rewrite IH; reflexivity].
Qed.

Lemma split_last_decompose (sep : ascii) (s : string) :
  exists d,
    s = d ++ List.last (split sep s) EmptyString /\
    (d = EmptyString \/ exists d', d = d' ++ String sep EmptyString) /\
    free_of sep (List.last (split sep s) EmptyString) = true.
Proof.
  induction s as [| c s IH].
  - exists EmptyString. simpl. auto.
  - destruct IH as [d [Hs [Hd Hfree]]]. simpl split.
    destruct (Ascii.eqb c sep) eqn:Ec.
    + apply Ascii.eqb_eq in Ec. subst c.
      rewrite last_cons_not_nil by apply split_not_nil.
      exists (String sep d). split; [simpl; rewrite <- Hs; reflexivity |].
      split; [| exact Hfree].
      right. destruct Hd as [-> | [d' ->]].
      * exists EmptyString. reflexivity.
      * exists (String sep d'). reflexivity.
    + destruct Hd as [-> | [d' ->]].
      * simpl in Hs. rewrite <- Hs in Hfree.
        rewrite (split_free _ _ Hfree). simpl.
        exists EmptyString. split; [reflexivity |].
        split; [left; reflexivity |].
        rewrite Ec. simpl. exact Hfree.
      * rewrite string_app_assoc in Hs. simpl in Hs.
        pose proof (split_append_length sep d'
                      (List.last (split sep s) EmptyString)) as Hlen.
        rewrite <- Hs in Hlen.
        destruct (split sep s) as [| p [| q r]] eqn:E; simpl in Hlen; try lia.
        exists (String c (d' ++ String sep EmptyString)).
        split; [| split].
        -- change (List.last (String c p :: q :: r) EmptyString)
             with (List.last (p :: q :: r) EmptyString).
           rewrite Hs at 1. simpl. rewrite string_app_assoc. reflexivity.
        -- right. exists (String c d'). reflexivity.
        -- exact Hfree.
Qed.

(** X6. The name taken from a path is what follows its last
    separator: the path is a directory part, empty or ending in '/',
    followed by the name, and the name contains no '/'. *)
Theorem path_tail_is_last_component :
  forall path,
    exists dir,
      path = dir ++ path_tail path /\
      (dir = EmptyString \/ exists dir', dir = dir' ++ "/") /\
      free_of os_path_sep (path_tail path) = true.
Proof.
  intros path. apply split_last_decompose.
Qed.

Lemma string_compare_refl (s : string) : String.compare s s = Eq.
Proof.
  induction s as [| c s IH]; simpl; [reflexivity |].
  unfold Ascii.compare. rewrite N.compare_refl. exact IH.
Qed.

Lemma string_leb_prefix (p a b : string) :
  String.leb (p ++ a) (p ++ b) = String.leb a b.
Proof.
  unfold String.leb.
  induction p as [| c p IH]; simpl; [reflexivity |].
  unfold Ascii.compare. rewrite N.compare_refl. exact IH.
Qed.

Lemma string_le_trans : RelationClasses.Transitive string_le.
Proof. intros a b c. apply string_leb_trans. Qed.

Lemma sorted_strongly (xs : list string) : StronglySorted string_le (sorted xs).
Proof.
  apply Sorted_StronglySorted; [exact string_le_trans |].
  apply Sorted_LocallySorted_iff, sorted_ordered.
Qed.

(** Two sorted lists with the same elements are the same list. *)
Lemma strongly_sorted_unique (l1 l2 : list string) :
  StronglySorted string_le l1 -> StronglySorted string_le l2 ->
  Permutation l1 l2 -> l1 = l2.
Proof.
  revert l2. induction l1 as [| a l1 IH]; intros l2 H1 H2 HP.
  - apply Permutation_nil in HP. congruence.
  - destruct l2 as [| b l2];
      [apply Permutation_sym, Permutation_nil in HP; discriminate |].
    inversion H1 as [| ? ? Hs1 Hall1]; subst.
    inversion H2 as [| ? ? Hs2 Hall2]; subst.
    rewrite Forall_forall in Hall1, Hall2.
    assert (a = b) as ->.
    { assert (In a (b :: l2)) as Ha
          by (eapply Permutation_in; [exact HP | left; reflexivity]).
      assert (In b (a :: l1)) as Hb
          by (eapply Permutation_in;
              [apply Permutation_sym; exact HP | left; reflexivity]).
      destruct Ha as [-> | Ha]; [reflexivity |].
      destruct Hb as [-> | Hb]; [reflexivity |].
      apply String.leb_antisym; [apply Hall1, Hb | apply Hall2, Ha]. }
    f_equal. apply IH; try assumption.
    eapply Permutation_cons_inv; exact HP.
Qed.

Lemma sorted_permutation_eq (l1 l2 : list string) :
  Permutation l1 l2 -> sorted l1 = sorted l2.
Proof.
  intros HP. apply strongly_sorted_unique; try apply sorted_strongly.
  eapply perm_trans; [apply Permutation_sym, sorted_perm |].
  eapply perm_trans; [exact HP | apply sorted_perm].
Qed.

(** X7. The subjects do not depend on the order in which the
    filesystem yields the matching paths: two environments whose globs
    return the same paths in any order give the same subject list, both
    before and after the truncation to one subject. *)
Theorem subjects_order_independent :
  forall env env',
    Permutation (glob env "/home/brain/bart/data/sub*")
                (glob env' "/home/brain/bart/data/sub*") ->
    subjects_all env = subjects_all env' /\ subjects env = subjects env'.
Proof.
  intros env env' HP.
  assert (subjects_all env = subjects_all env') as H.
  { unfold subjects_all, subjdirs. rewrite subject_pattern.
    rewrite (sorted_permutation_eq _ _ HP). reflexivity. }
  split; [exact H |]. unfold subjects. rewrite H. reflexivity.
Qed.

Lemma subjects_order_independent_witness :
  subjects (sample_env false
              ["/home/brain/bart/data/sub002"; "/home/brain/bart/data/sub001"]
              no_image)
  = subjects (sample_env false
                ["/home/brain/bart/data/sub001"; "/home/brain/bart/data/sub002"]
                no_image).
Proof.
  apply (subjects_order_independent
           (sample_env false
              ["/home/brain/bart/data/sub002"; "/home/brain/bart/data/sub001"]
              no_image)
           (sample_env false
              ["/home/brain/bart/data/sub001"; "/home/brain/bart/data/sub002"]
              no_image)).
  simpl. apply perm_swap.
Defined.

(** X8. Before the truncation the list of line 25 holds one name per
    matching path: it is the list of the last components of the
    matches, reordered, and none of its names contains a '/'. The final
    list is its first element, or empty with it. *)
Theorem subjects_all_names :
  forall env,
    Permutation (map path_tail (glob env "/home/brain/bart/data/sub*"))
                (subjects_all env) /\
    List.length (subjects_all env)
      = List.length (glob env "/home/brain/bart/data/sub*") /\
    (forall s, In s (subjects_all env) -> free_of os_path_sep s = true) /\
    subjects env = match subjects_all env with
                   | [] => []
                   | s :: _ => [s]
                   end.
Proof.
  intros env.
  assert (Permutation (map path_tail (glob env "/home/brain/bart/data/sub*"))
                      (subjects_all env)) as HP.
  { unfold subjects_all, subjdirs. rewrite subject_pattern.
    apply Permutation_map, sorted_perm. }
  split; [exact HP |]. split; [| split].
  - rewrite <- (Permutation_length HP). apply length_map.
  - intros s Hs. unfold subjects_all in Hs. apply in_map_iff in Hs.
    destruct Hs as [p [<- _]].
    destruct (split_last_decompose os_path_sep p) as [d [_ [_ H]]]. exact H.
  - unfold subjects. destruct (subjects_all env); reflexivity.
Qed.

End SubjectNames.

Section LeastSubject.

(** X9. When the matches are entries of the data directory, the one
    subject kept is the least entry name in string order. *)
Theorem subjects_least_name :
  forall env names,
    glob env "/home/brain/bart/data/sub*"
      = map (fun name => datadir ++ "/" ++ name) names ->
    (forall name, In name names -> free_of os_path_sep name = true) ->
    names <> [] ->
    exists name,
      In name names /\
      (forall other, In other names -> String.leb name other = true) /\
      subjects env = [name].
Proof.
  intros env names Hglob Hfree Hne.
  unfold subjects, subjects_all, subjdirs. rewrite subject_pattern, Hglob.
  destruct (sorted (map (fun name => datadir ++ "/" ++ name) names))
    as [| m rest] eqn:E.
  - apply (proj1 (sorted_nil_iff _)) in E.
    destruct names; [congruence | discriminate].
  - destruct (sorted_head_least _ _ _ E) as [Hin Hleast].
    apply in_map_iff in Hin. destruct Hin as [name [<- Hname]].
    exists name. split; [exact Hname |]. split.
    + intros other Hother.
      assert (String.leb (datadir ++ "/" ++ name) (datadir ++ "/" ++ other) = true)
        as H by (apply Hleast, in_map_iff; exists other; split; auto).
      rewrite <- !string_app_assoc, string_leb_prefix in H. exact H.
    + cbn [map firstn].
      rewrite path_tail_join by (apply Hfree, Hname). reflexivity.
Qed.

Lemma subjects_least_name_witness :
  exists name,
    In name ["sub02"; "sub01"; "sub10"] /\
    (forall other, In other ["sub02"; "sub01"; "sub10"] ->
                   String.leb name other = true) /\
    subjects (sample_env false
                [ "/home/brain/bart/data/sub02";
                  "/home/brain/bart/data/sub01";
                  "/home/brain/bart/data/sub10" ] no_image) = [name].
Proof.
  apply (subjects_least_name
           (sample_env false
              [ "/home/brain/bart/data/sub02";
                "/home/brain/bart/data/sub01";
                "/home/brain/bart/data/sub10" ] no_image)
           ["sub02"; "sub01"; "sub10"]).
  - reflexivity.
  - intros name [<- | [<- | [<- | []]]]; reflexivity.
  - discriminate.
Defined.

End LeastSubject.

(** ** The operations of the command line *)

Section Operations.

Lemma main_operation (raises : oracle) (argv : list string) (arg : string) :
  nth_error argv 1 = Some arg ->
  main raises argv = perform raises [] (operation arg).
Proof.
  intros H. unfold main, operation. rewrite H.
  assert ((1 <? List.length argv)%nat = true) as ->.
  { apply Nat.ltb_lt, nth_error_Some. congruence. }
  destruct (String.eqb arg "plot"); [reflexivity |].
  destruct (String.eqb arg "run"); reflexivity.
Qed.

Lemma main_no_argument (raises : oracle) (argv : list string) :
  nth_error argv 1 = None -> main raises argv = idle.
Proof.
  intros H. apply main_idle. left. exact H.
Qed.

(** X10. Only the first argument matters: the program name and any
    further argument are ignored. *)
Theorem main_reads_first_argument_only :
  forall raises argv argv',
    nth_error argv 1 = nth_error argv' 1 ->
    main raises argv = main raises argv'.
Proof.
  intros raises argv argv' H.
  destruct (nth_error argv' 1) as [arg |] eqn:E.
  - rewrite (main_operation _ _ _ H), (main_operation _ _ _ E). reflexivity.
  - rewrite (main_no_argument _ _ H), (main_no_argument _ _ E). reflexivity.
Qed.

Lemma main_reads_first_argument_only_witness :
  main run_raises ["preproc.py"; "run"; "--verbose"]
  = main run_raises ["./lib/preproc.py"; "run"].
Proof.
  apply main_reads_first_argument_only. reflexivity.
Defined.

Lemma perform_prefix (raises : oracle) (todo : list call) :
  forall history,
    exists done rest,
      performed (perform raises history todo) = (history ++ done)%list /\
      todo = (done ++ rest)%list.
Proof.
  induction todo as [| c todo IH]; intros history; simpl.
  - exists [], []. split; [symmetry; apply app_nil_r | reflexivity].
  - destruct (raises history c) as [e |]; simpl.
    + exists [c], todo. split; reflexivity.
    + destruct (IH (history ++ [c])%list) as [done [rest [Hp Ht]]].
      exists (c :: done), rest. split.
      * rewrite Hp, <- app_assoc. reflexivity.
      * rewrite Ht. reflexivity.
Qed.

(** X11. An operation makes its calls in program order and stops at
    the first one that raises: the calls performed are an initial
    segment of the operation's calls, and all of them when the exit
    status is 0. *)
Theorem main_performs_initial_segment :
  forall raises argv arg,
    nth_error argv 1 = Some arg ->
    (exists rest,
        operation arg = (performed (main raises argv) ++ rest)%list) /\
    (exit_status (main raises argv) = 0%Z ->
     performed (main raises argv) = operation arg).
Proof.
  intros raises argv arg H. rewrite (main_operation _ _ _ H). split.
  - destruct (perform_prefix raises (operation arg) []) as [done [rest [Hp Ht]]].
    exists rest. rewrite Hp. exact Ht.
  - unfold exit_status.
    destruct (uncaught (perform raises [] (operation arg))) eqn:E;
      [discriminate |].
    intros _. apply (perform_completed _ _ _ E).
Qed.

Lemma main_performs_initial_segment_witness :
  (exists rest,
      operation "run"
        = (performed (main run_raises ["preproc.py"; "run"]) ++ rest)%list) /\
  (exit_status (main never_raises ["preproc.py"; "plot"]) = 0%Z ->
   performed (main never_raises ["preproc.py"; "plot"]) = operation "plot").
Proof.
  split.
  - apply (proj1 (main_performs_initial_segment run_raises
                    ["preproc.py"; "run"] "run" eq_refl)).
  - apply (proj2 (main_performs_initial_segment never_raises
                    ["preproc.py"; "plot"] "plot" eq_refl)).
Defined.

End Operations.

Section WhatIsNeverDone.

Lemma performed_in_operation (raises : oracle) (argv : list string) (c : call) :
  In c (performed (main raises argv)) ->
  exists arg, nth_error argv 1 = Some arg /\ In c (operation arg).
Proof.
  destruct (nth_error argv 1) as [arg |] eqn:E.
  - rewrite (main_operation _ _ _ E). intros H. exists arg.
    split; [reflexivity |].
    destruct (perform_prefix raises (operation arg) []) as [done [rest [Hp Ht]]].
    rewrite Ht. apply in_or_app. left. rewrite Hp in H. exact H.
  - rewrite (main_no_argument _ _ E). intros [].
Qed.

Lemma operation_cases (arg : string) :
  (arg = "plot" /\ operation arg = make_schemata) \/
  (arg = "run" /\ operation arg = run_preproc) \/
  (arg <> "plot" /\ arg <> "run" /\ operation arg = []).
Proof.
  unfold operation.
  destruct (String.eqb_spec arg "plot") as [-> | Hp]; [left; auto |].
  destruct (String.eqb_spec arg "run") as [-> | Hr]; [right; left; auto |].
  right; right; auto.
Qed.

(** X12. The report directory is deleted only by the 'run' operation
    and only after the workflow ran without raising; the directory
    deleted is 'preproc' and no other. *)
Theorem rmtree_only_after_successful_run :
  forall raises argv path,
    In (Rmtree path) (performed (main raises argv)) <->
    nth_error argv 1 = Some "run" /\
    raises [] WorkflowRun = None /\
    path = "preproc".
Proof.
  intros raises argv path. split.
  - intros H.
    destruct (performed_in_operation _ _ _ H) as [arg [E Hin]].
    destruct (operation_cases arg) as [[-> Ho] | [[-> Ho] | [_ [_ Ho]]]];
      rewrite Ho in Hin.
    + simpl in Hin. intuition discriminate.
    + rewrite (main_operation _ _ _ E) in H. simpl in H.
      destruct (raises [] WorkflowRun) as [e |]; simpl in H.
      * intuition discriminate.
      * split; [exact E |]. split; [reflexivity |].
        destruct Hin as [Hc | [Hc | []]]; [discriminate | congruence].
    + destruct Hin.
  - intros [E [Hrun ->]].
    rewrite (main_operation _ _ _ E). simpl. rewrite Hrun. simpl.
    destruct (raises [WorkflowRun] (Rmtree "preproc")); simpl; tauto.
Qed.

Lemma rmtree_only_after_successful_run_witness :
  In (Rmtree "preproc") (performed (main never_raises ["preproc.py"; "run"]))
  /\ ~ In (Rmtree "preproc") (performed (main run_raises ["preproc.py"; "run"])).
Proof.
  split.
  - apply (proj2 (rmtree_only_after_successful_run never_raises
                    ["preproc.py"; "run"] "preproc")).
    repeat split.
  - intros H.
    apply (proj1 (rmtree_only_after_successful_run run_raises
                    ["preproc.py"; "run"] "preproc")) in H.
    destruct H as [_ [H _]]. discriminate H.
Defined.

(** X13. The workflow is run exactly under 'run' and the graph is
    written exactly under 'plot'; a schema file is moved only under
    'plot' and only after the graph was written without raising. *)
Theorem operations_are_separate :
  forall raises argv,
    (In WorkflowRun (performed (main raises argv)) <->
     nth_error argv 1 = Some "run") /\
    (forall name kind,
        In (WriteGraph name kind) (performed (main raises argv)) <->
        nth_error argv 1 = Some "plot" /\ name = "preproc" /\ kind = "orig") /\
    (forall from to,
        In (OsRename from to) (performed (main raises argv)) ->
        nth_error argv 1 = Some "plot" /\
        raises [] (WriteGraph "preproc" "orig") = None).
Proof.
  intros raises argv. split; [| split].
  - split.
    + intros H. destruct (performed_in_operation _ _ _ H) as [arg [E Hin]].
      destruct (operation_cases arg) as [[-> Ho] | [[-> Ho] | [_ [_ Ho]]]];
        rewrite Ho in Hin; [| exact E | destruct Hin].
      simpl in Hin. intuition discriminate.
    + intros E. rewrite (main_operation _ _ _ E). simpl.
      destruct (raises [] WorkflowRun); simpl; [tauto |].
      destruct (raises [WorkflowRun] (Rmtree "preproc")); simpl; tauto.
  - intros name kind. split.
    + intros H. destruct (performed_in_operation _ _ _ H) as [arg [E Hin]].
      destruct (operation_cases arg) as [[-> Ho] | [[-> Ho] | [_ [_ Ho]]]];
        rewrite Ho in Hin; [| simpl in Hin; intuition discriminate | destruct Hin].
      split; [exact E |].
      simpl in Hin.
      destruct Hin as [Hc | Hin]; [injection Hc as <- <-; auto |].
      intuition discriminate.
    + intros [E [-> ->]]. rewrite (main_operation _ _ _ E).
      destruct (perform_prefix raises (operation "plot") []) as [done [rest [Hp Ht]]].
      rewrite Hp. simpl.
      destruct done as [| c done].
      * exfalso. change (operation "plot") with make_schemata in Hp.
        simpl in Hp.
        destruct (raises [] (WriteGraph "preproc" "orig")); simpl in Hp;
          [discriminate |].
        destruct (perform_prefix raises
                    (tl make_schemata) [WriteGraph "preproc" "orig"])
          as [d' [r' [Hp' _]]].
        simpl in Hp'. rewrite Hp' in Hp. discriminate.
      * change (operation "plot") with make_schemata in Ht.
        injection Ht as <- _. left. reflexivity.
  - intros from to H.
    destruct (performed_in_operation _ _ _ H) as [arg [E Hin]].
    destruct (operation_cases arg) as [[-> Ho] | [[-> Ho] | [_ [_ Ho]]]];
      rewrite Ho in Hin; [| simpl in Hin; intuition discriminate | destruct Hin].
    split; [exact E |].
    rewrite (main_operation _ _ _ E) in H.
    change (operation "plot") with make_schemata in H. simpl in H.
    destruct (raises [] (WriteGraph "preproc" "orig")); [| reflexivity].
    simpl in H. intuition discriminate.
Qed.

Lemma operations_are_separate_witness :
  In WorkflowRun (performed (main run_raises ["preproc.py"; "run"]))
  /\ In (WriteGraph "preproc" "orig")
        (performed (main never_raises ["preproc.py"; "plot"])).
Proof.
  split.
  - apply (proj2 (proj1 (operations_are_separate run_raises
                           ["preproc.py"; "run"]))).
    reflexivity.
  - apply (proj2 (proj1 (proj2 (operations_are_separate never_raises
                                  ["preproc.py"; "plot"]))
                    "preproc" "orig")).
    repeat split.
Defined.

End WhatIsNeverDone.

(** ** Shape of the graph *)

Section Shape.

Lemma reaches_sound (es : list edge) :
  forall fuel a b, reaches fuel es a b = true -> path es a b.
Proof.
  induction fuel as [| f IH]; intros a b; simpl; [discriminate |].
  intros H. apply existsb_exists in H as [e [He Hstep]].
  apply andb_true_iff in Hstep as [Hsrc Hnext].
  apply node_eqb_eq in Hsrc. subst a.
  apply orb_true_iff in Hnext as [Hdst | Hrec].
  - apply node_eqb_eq in Hdst. subst b. apply path_edge, He.
  - apply path_cons; [exact He | apply IH, Hrec].
Qed.

(** X14. The names given to the twelve nodes are pairwise distinct, so
    a name identifies its node within the workflow. *)
Theorem node_names_distinct :
  forall a b, node_name a = node_name b -> a = b.
Proof.
  intros a b. destruct a, b; simpl; intros H;
    first [reflexivity | discriminate H].
Qed.

Lemma node_names_distinct_witness : extract_ref = extract_ref.
Proof.
  apply node_names_distinct. reflexivity.
Defined.

(** X15. Every node lies between the information source and the data
    sink: each node other than [infosource] is reached by a path from
    it, each node other than [datasink] has a path to it, no edge
    enters [infosource] and none leaves [datasink]. *)
Theorem every_node_between_source_and_sink :
  (forall n, n <> infosource -> path connect_calls infosource n) /\
  (forall n, n <> datasink -> path connect_calls n datasink) /\
  (forall e, In e connect_calls -> dst e <> infosource /\ src e <> datasink).
Proof.
  split; [| split].
  - intros n Hn. apply (reaches_sound connect_calls 12).
    destruct n; try reflexivity. congruence.
  - intros n Hn. apply (reaches_sound connect_calls 12).
    destruct n; try reflexivity. congruence.
  - assert (forallb (fun e => negb (node_eqb (dst e) infosource)
                              && negb (node_eqb (src e) datasink))
                    connect_calls = true) as H by reflexivity.
    rewrite forallb_forall in H. intros e He.
    specialize (H e He). apply andb_true_iff in H as [H1 H2].
    apply negb_true_iff in H1, H2.
    split; intros Heq; rewrite Heq in *; discriminate.
Qed.

Lemma every_node_between_source_and_sink_witness :
  path connect_calls infosource skull_strip
  /\ path connect_calls skull_strip datasink.
Proof.
  destruct every_node_between_source_and_sink as [Hfrom [Hto _]].
  split; [apply Hfrom | apply Hto]; discriminate.
Defined.

End Shape.

(** ** Instances *)

Section Instances.

Lemma pickfirst_fails_only_on_empty_witness :
  pickfirst (PList []) = Raise IndexError.
Proof.
  apply (proj2 (pickfirst_fails_only_on_empty (PList []) IndexError)).
  split; reflexivity.
Defined.

Lemma subjects_all_names_witness :
  free_of os_path_sep "sub001" = true.
Proof.
  apply (proj1 (proj2 (proj2 (subjects_all_names
           (sample_env false
              ["/home/brain/bart/data/sub002"; "/home/brain/bart/data/sub001"]
              no_image))))).
  simpl. left. reflexivity.
Defined.

End Instances.
